(** * iab-docs-bot worker: delivery handler, idempotency ledger, tool adapter
      and answer agent

    Shallow embedding of [services/worker/src/index.ts] (the Pub/Sub push
    handler and the two [generateAnswer] variants) and of
    [services/worker/src/mcp.ts] (the MCP tool adapter).

    The worker talks to four external services (Firestore, Slack, the
    Gemini chat API and an MCP server).  Every request the code issues is
    recorded, with its outcome, in a history kept in the world state; what
    a service answers is read from an environment of oracles that see the
    whole history, so a theorem quantified over environments covers every
    behaviour of the services.  An awaited call either resolves or
    rejects; console logging is left out, except for the one log line
    whose argument can throw (after the decoding of the payload). *)

From Equations Require Import Equations.
From Stdlib Require Import List NArith ZArith String Ascii Lia Bool.
From stdpp Require Import base option list gmap.
Import ListNotations.

Local Open Scope N_scope.
Local Set Warnings "-register-all".

(** ** JavaScript strings

    A JavaScript string is a sequence of UTF-16 code units; [trim] and the
    regular expression of the handler work on code units. *)

Abbreviation jsstring := (list N).

Module Utf8.

(** Literals are written as Rocq strings (UTF-8 bytes) and decoded once;
    ill-formed input ends the decoding. *)

Definition cont (b : N) : N := N.land b 63.

Definition units_of_code_point (cp : N) : jsstring :=
  if cp <? 65536 then [cp]
  else [55296 + N.shiftr (cp - 65536) 10; 56320 + N.land (cp - 65536) 1023].

Fixpoint decode (bs : list N) : jsstring :=
  match bs with
  | [] => []
  | b :: rest =>
      if b <? 128 then b :: decode rest
      else if b <? 224 then
        match rest with
        | c1 :: rest1 =>
            (N.shiftl (N.land b 31) 6 + cont c1) :: decode rest1
        | _ => []
        end
      else if b <? 240 then
        match rest with
        | c1 :: c2 :: rest2 =>
            (N.shiftl (N.land b 15) 12 + N.shiftl (cont c1) 6 + cont c2)
              :: decode rest2
        | _ => []
        end
      else
        match rest with
        | c1 :: c2 :: c3 :: rest3 =>
            units_of_code_point
              (N.shiftl (N.land b 7) 18 + N.shiftl (cont c1) 12
               + N.shiftl (cont c2) 6 + cont c3)
              ++ decode rest3
        | _ => []
        end
  end.

Definition bytes (s : string) : list N :=
  List.map N_of_ascii (list_ascii_of_string s).

End Utf8.

Definition js (s : string) : jsstring := Utf8.decode (Utf8.bytes s).

(** [String.prototype.trim]: the code units of ECMAScript's WhiteSpace and
    LineTerminator productions. *)
Definition isWhiteSpace (c : N) : bool :=
  (c =? 9) || (c =? 10) || (c =? 11) || (c =? 12) || (c =? 13) || (c =? 32)
  || (c =? 160) || (c =? 5760) || ((8192 <=? c) && (c <=? 8202))
  || (c =? 8232) || (c =? 8233) || (c =? 8239) || (c =? 8287)
  || (c =? 12288) || (c =? 65279).

Fixpoint trimStart (s : jsstring) : jsstring :=
  match s with
  | c :: rest => if isWhiteSpace c then trimStart rest else s
  | [] => []
  end.

Definition trimEnd (s : jsstring) : jsstring := rev (trimStart (rev s)).

Definition trim (s : jsstring) : jsstring := trimEnd (trimStart s).

(** The character class [[A-Z0-9]] of the mention pattern. *)
Definition isMentionIdChar (c : N) : bool :=
  ((65 <=? c) && (c <=? 90)) || ((48 <=? c) && (c <=? 57)).

(** Greedy [[A-Z0-9]*]: the input after the longest run of class
    characters. *)
Fixpoint skipMentionId (s : jsstring) : jsstring :=
  match s with
  | c :: rest => if isMentionIdChar c then skipMentionId rest else s
  | [] => []
  end.

(** One match of [/<@[A-Z0-9]+>/] anchored at the head of [s]: the input
    that follows the match.  After the greedy run the next unit must be
    [>]; giving units back cannot help, none of them is [>]. *)
Definition matchMention (s : jsstring) : option jsstring :=
  match s with
  | open :: at_sign :: c :: rest =>
      if (open =? 60) && (at_sign =? 64) && isMentionIdChar c then
        match skipMentionId rest with
        | close :: after => if close =? 62 then Some after else None
        | [] => None
        end
      else None
  | _ => None
  end.

Definition inspect {A : Type} (a : A) : {b : A | a = b} := exist _ a eq_refl.

(** [text.replace(/<@[A-Z0-9]+>/g, '')]: scan from the left; where the
    pattern matches, drop the match and go on after it (what was dropped is
    not scanned again), otherwise keep the unit and move one unit on. *)
Equations? stripMentions (s : jsstring) : jsstring by wf (length s) lt :=
stripMentions [] := [];
stripMentions (c :: rest) with inspect (matchMention (c :: rest)) := {
  | exist _ (Some after) H => stripMentions after
  | exist _ None _ => c :: stripMentions rest }.
Proof.
  - clear stripMentions. unfold matchMention in H.
    destruct rest as [|at_sign [|c0 rest]]; try discriminate.
    destruct ((c =? 60) && (at_sign =? 64) && isMentionIdChar c0);
      try discriminate.
    assert (Hskip : forall s, (length (skipMentionId s) <= length s)%nat).
    { induction s as [|d s IH]; simpl; [lia|].
      destruct (isMentionIdChar d); simpl; lia. }
    specialize (Hskip rest).
    destruct (skipMentionId rest) as [|close after']; try discriminate.
    destruct (close =? 62); try discriminate.
    injection H as ->. simpl in *. lia.
  - simpl. lia.
Qed.

(** [event.text.replace(/<@[A-Z0-9]+>/g, '').trim()] *)
Definition extractQuestion (text : jsstring) : jsstring :=
  trim (stripMentions text).

(** [Array.prototype.join]: [undefined] elements are joined as the empty
    string. *)
Fixpoint join (sep : jsstring) (items : list (option jsstring)) : jsstring :=
  match items with
  | [] => []
  | [x] => default [] x
  | x :: rest => default [] x ++ sep ++ join sep rest
  end.

(** [String.prototype.toLowerCase] on the Basic Latin letters.  The only
    other code unit whose lower case is a Basic Latin letter is U+212A
    (KELVIN SIGN, lower case [k]); no schema type name contains a [k], so
    [mapSchemaType] cannot tell the difference. *)
Definition toLowerCase (s : jsstring) : jsstring :=
  List.map (fun c => if (65 <=? c) && (c <=? 90) then c + 32 else c) s.

(** ** Data of the worker *)

(** A thrown JavaScript [Error]; the agent reads its [message]. *)
Record JsError := { message : jsstring }.

Inductive Throws (A : Type) : Type :=
| Ok (a : A)
| Raise (e : JsError).
Arguments Ok {A} a.
Arguments Raise {A} e.

Inductive Json :=
| JNull
| JBool (b : bool)
| JNumber (z : Z)
| JString (s : jsstring)
| JArray (items : list Json)
| JObject (fields : list (jsstring * Json)).

(** [interface SlackEvent].  The payload is parsed JSON cast to the
    interface; [text] is the one field the handler calls a method on
    ([event.text.replace]), so its absence is part of the model. *)
Record SlackEvent := {
  event_id : jsstring;
  event_time : N;
  team_id : jsstring;
  channel : jsstring;
  user : jsstring;
  text : option jsstring;
  ts : jsstring;
  thread_ts : jsstring;
}.

(** What [JSON.parse] made of the payload: [null], the one value whose
    properties cannot be read, or an object with the fields of the
    interface ([text] apart, which may be missing).  Payloads that parse
    to another value, such as a number or an object without [event_id],
    are not modelled. *)
Inductive Parsed :=
| ParsedNull
| ParsedEvent (event : SlackEvent).

(** [interface PubSubMessage]; [req.body] is cast to it, so [message] and
    [data] may be missing. *)
Record PubSubEnvelope := {
  data : option jsstring;
  messageId : jsstring;
  publishTime : jsstring;
}.

Record PubSubMessage := {
  message_ : option PubSubEnvelope;
  subscription : jsstring;
}.

(** The document written to the [processed_events] collection. *)
Record Marker := {
  processed_at : N;
  marker_channel : jsstring;
  marker_ts : jsstring;
}.

(** [res.status(code).send(body)] *)
Record HttpResponse := {
  status : N;
  body : jsstring;
}.

Record GenerateAnswerResult := {
  answer : jsstring;
  success : bool;
}.

(** A function call requested by the model. *)
Record FunctionCall := {
  call_name : jsstring;
  call_args : Json;
}.

(** The [response] object of a [functionResponse] part:
    [{ content: ... }] or [{ error: ... }]. *)
Inductive ToolResponse :=
| ResponseContent (content : jsstring)
| ResponseError (error : jsstring).

(** [{ functionResponse: { name, response } }] *)
Record Part := {
  part_name : jsstring;
  part_response : ToolResponse;
}.

(** What [chat.sendMessage] is given: the question, or the parts that
    answer a batch of function calls. *)
Inductive ChatMessage :=
| MessageText (t : jsstring)
| MessageParts (parts : list Part).

(** [result.response] of a model turn.  Both accessors of the SDK may
    throw (a blocked response); [functionCalls()] is [undefined] when the
    turn has none. *)
Record GenerateContentResponse := {
  functionCalls : Throws (option (list FunctionCall));
  response_text : Throws jsstring;
}.

(** One fragment of an MCP tool result. *)
Record ContentItem := {
  item_type : jsstring;
  item_text : option jsstring;
}.

Record CallToolResult := {
  result_content : option (list ContentItem);
  result_isError : option bool;
}.

(** What [callMcpTool] returns. *)
Record ToolResult := {
  content : jsstring;
  isError : option bool;
}.

(** The JSON schema of a tool's input, as the MCP server declares it.
    [type] is whatever JSON the server wrote there: JSON Schema has a name
    or, for a union, an array of names. *)
Inductive JsonSchema :=
| MkJsonSchema
    (type : option Json)
    (description : option jsstring)
    (nullable : option bool)
    (properties : option (list (jsstring * JsonSchema)))
    (required : option (list jsstring))
    (items : option JsonSchema)
    (enum : option (list jsstring)).

Inductive SchemaType := STRING | NUMBER | INTEGER | BOOLEAN | ARRAY | OBJECT.

(** The schema in the format of the model's function declarations. *)
Inductive GeminiSchema :=
| MkGeminiSchema
    (type : SchemaType)
    (description : option jsstring)
    (nullable : option bool)
    (properties : option (list (jsstring * GeminiSchema)))
    (required : option (list jsstring))
    (items : option GeminiSchema)
    (enum : option (list jsstring)).

Record McpTool := {
  tool_name : jsstring;
  tool_description : option jsstring;
  tool_inputSchema : option JsonSchema;
}.

Record FunctionDeclaration := {
  fd_name : jsstring;
  fd_description : jsstring;
  fd_parameters : option GeminiSchema;
}.

(** [new Client({ name: 'iab-docs-bot', version: '1.0.0' })] *)
Record McpClient := {
  client_name : jsstring;
  client_version : jsstring;
}.

(** [new GoogleGenerativeAI(GEMINI_API_KEY)] *)
Record GoogleGenerativeAI := {
  apiKey : jsstring;
}.

(** The values read from [process.env] when the modules load; a variable
    that is not set reads as its default. *)
Record Config := {
  GEMINI_API_KEY : jsstring;
  MODEL_NAME : jsstring;
  MCP_URL : jsstring;
}.

(** ** The outside world *)

(** The requests the worker sends to its collaborators. *)
Inductive Request :=
| FirestoreGet (eventId : jsstring)
| FirestoreSet (eventId : jsstring) (marker : Marker)
| SlackPostMessage (channel thread_ts text : jsstring)
| McpConnect (url : jsstring)
| McpListTools
| McpCallTool (name : jsstring) (args : Json)
| GeminiSendMessage (msg : ChatMessage).

(** A request with its outcome: [succeeded] is false when the call threw
    (the awaited promise was rejected). *)
Record Entry := {
  request : Request;
  succeeded : bool;
}.

(** The collaborators.  Every oracle reads the history, newest entry
    first.  [fault] sees the history before the request and the request;
    the result oracles see the history with the request at its head. *)
Record Env := {
  fault : list Entry -> Request -> option JsError;
  now : list Entry -> N;
  listToolsResult : list Entry -> list McpTool;
  callToolResult : list Entry -> CallToolResult;
  sendMessageResult : list Entry -> GenerateContentResponse;
  (** [Buffer.from(data, 'base64').toString('utf-8')] then [JSON.parse] *)
  decodeEvent : jsstring -> Throws Parsed;
  (** [new URL(s)] throws on a string that is not a URL *)
  isURL : jsstring -> bool;
  JSON_stringify : option (list ContentItem) -> jsstring;
}.

(** The state of the process and of the store it shares. *)
Record World := {
  history : list Entry;
  (** the Firestore collection [processed_events] *)
  processed_events : gmap (list N) Marker;
  (** [let client: Client | null] of mcp.ts *)
  client : option McpClient;
  (** [let genAI: GoogleGenerativeAI | null] of gemini.ts *)
  genAI : option GoogleGenerativeAI;
}.

(** ** Computations: state and exceptions *)

Definition M (A : Type) : Type := World -> Throws A * World.

Definition ret {A : Type} (a : A) : M A := fun w => (Ok a, w).

Definition throw {A : Type} (e : JsError) : M A := fun w => (Raise e, w).

Definition bind {A B : Type} (m : M A) (k : A -> M B) : M B :=
  fun w =>
    match m w with
    | (Ok a, w') => k a w'
    | (Raise e, w') => (Raise e, w')
    end.

(** [try { m } catch (err) { handler err }] *)
Definition tryCatch {A : Type} (m : M A) (handler : JsError -> M A) : M A :=
  fun w =>
    match m w with
    | (Ok a, w') => (Ok a, w')
    | (Raise e, w') => handler e w'
    end.

Declare Scope m_scope.
Delimit Scope m_scope with M.
Notation "x <- m ;; k" := (bind m (fun x => k))
  (at level 100, m at next level, right associativity) : m_scope.
Notation "m ;; k" := (bind m (fun _ => k))
  (at level 100, right associativity) : m_scope.
Local Open Scope m_scope.

Definition getWorld : M World := fun w => (Ok w, w).

(** A throw inside code that touches no state. *)
Definition bindThrows {A B : Type} (t : Throws A) (k : A -> Throws B)
    : Throws B :=
  match t with
  | Ok a => k a
  | Raise e => Raise e
  end.

(** [Array.prototype.map] with a function that may throw: the first throw
    ends the mapping. *)
Fixpoint mapThrows {A B : Type} (f : A -> Throws B) (l : list A)
    : Throws (list B) :=
  match l with
  | [] => Ok []
  | a :: rest =>
      bindThrows (f a) (fun b =>
      bindThrows (mapThrows f rest) (fun bs => Ok (b :: bs)))
  end.

Definition pushEntry (e : Entry) (w : World) : World :=
  {| history := e :: history w;
     processed_events := processed_events w;
     client := client w;
     genAI := genAI w |}.

Definition putMarker (eventId : jsstring) (m : Marker) (w : World) : World :=
  {| history := history w;
     processed_events := <[eventId := m]> (processed_events w);
     client := client w;
     genAI := genAI w |}.

Definition record (e : Entry) : M unit := fun w => (Ok tt, pushEntry e w).

Definition setClient (c : option McpClient) : M unit :=
  fun w => (Ok tt, {| history := history w;
                      processed_events := processed_events w;
                      client := c;
                      genAI := genAI w |}).

Definition setGenAI (g : option GoogleGenerativeAI) : M unit :=
  fun w => (Ok tt, {| history := history w;
                      processed_events := processed_events w;
                      client := client w;
                      genAI := g |}).

Definition storeMarker (eventId : jsstring) (m : Marker) : M unit :=
  fun w => (Ok tt, putMarker eventId m w).

Section Worker.

Variable cfg : Config.
Variable E : Env.

(** An awaited call to a collaborator: the request is recorded with its
    outcome; a rejected promise is a throw at the [await]. *)
Definition await (r : Request) : M unit :=
  w <- getWorld ;;
  match fault E (history w) r with
  | Some e => record {| request := r; succeeded := false |} ;; throw e
  | None => record {| request := r; succeeded := true |}
  end.

Definition liftThrows {A : Type} (t : Throws A) : M A :=
  match t with
  | Ok a => ret a
  | Raise e => throw e
  end.

(** *** index.ts: the idempotency ledger and the reply sink *)

(** [isEventProcessed]: [doc.exists], and [false] when the read throws. *)
Definition isEventProcessed (eventId : jsstring) : M bool :=
  tryCatch
    (await (FirestoreGet eventId) ;;
     w <- getWorld ;;
     ret (bool_decide (is_Some (processed_events w !! eventId))))
    (fun _ => ret false).

(** [markEventProcessed]: a failed write is logged and dropped. *)
Definition markEventProcessed (eventId channel ts : jsstring) : M unit :=
  tryCatch
    (w <- getWorld ;;
     let marker := {| processed_at := now E (history w);
                      marker_channel := channel;
                      marker_ts := ts |} in
     await (FirestoreSet eventId marker) ;;
     storeMarker eventId marker)
    (fun _ => ret tt).

Definition replyToSlack (channel threadTs text : jsstring) : M unit :=
  await (SlackPostMessage channel threadTs text).

(** *** mcp.ts: the tool adapter *)

(** [getClient]: the module variable is assigned before [connect] is
    awaited. *)
Definition getClient : M McpClient :=
  w <- getWorld ;;
  match client w with
  | Some c => ret c
  | None =>
      if isURL E (MCP_URL cfg) then
        let c := {| client_name := js "iab-docs-bot";
                    client_version := js "1.0.0" |} in
        setClient (Some c) ;;
        await (McpConnect (MCP_URL cfg)) ;;
        ret c
      else throw {| message := js "Invalid URL" |}
  end.

(** The [TypeError] of a call to a method the value does not have. *)
Definition TYPE_ERROR : JsError :=
  {| message := js "type?.toLowerCase is not a function" |}.

(** [mapSchemaType]: [type?.toLowerCase()] is [undefined] for a type that
    is missing or [null], the lowered name for a string, and throws for
    every other value, which has no [toLowerCase]. *)
Definition mapSchemaType (type : option Json) : Throws SchemaType :=
  match type with
  | None | Some JNull => Ok STRING
  | Some (JString t) =>
      let t := toLowerCase t in
      if decide (t = js "string") then Ok STRING
      else if decide (t = js "number") then Ok NUMBER
      else if decide (t = js "integer") then Ok INTEGER
      else if decide (t = js "boolean") then Ok BOOLEAN
      else if decide (t = js "array") then Ok ARRAY
      else if decide (t = js "object") then Ok OBJECT
      else Ok STRING
  | Some _ => Raise TYPE_ERROR
  end.

(** The key under which an assignment sets the prototype of a plain
    object instead of defining a property. *)
Definition PROTO : jsstring := js "__proto__".

(** The loop over [Object.entries(schema.properties)]: each property is
    converted in turn, and [result.properties[key] = ...] defines it on
    the result, except under the key [__proto__], where the assignment
    defines nothing. *)
Definition convertProperties (convert : JsonSchema -> Throws GeminiSchema) :
    list (jsstring * JsonSchema) -> Throws (list (jsstring * GeminiSchema)) :=
  fix loop entries :=
    match entries with
    | [] => Ok []
    | (key, prop) :: rest =>
        bindThrows (convert prop) (fun converted =>
        bindThrows (loop rest) (fun result =>
        Ok (if bool_decide (key = PROTO) then result
            else (key, converted) :: result)))
    end.

(** [convertSchema] on a schema that is present. *)
Fixpoint convertSchemaNode (schema : JsonSchema) : Throws GeminiSchema :=
  match schema with
  | MkJsonSchema type description nullable properties required items enum =>
      bindThrows (mapSchemaType type) (fun type' =>
      bindThrows
        match properties with
        | Some entries =>
            bindThrows (convertProperties convertSchemaNode entries)
              (fun result => Ok (Some result))
        | None => Ok None
        end (fun properties' =>
      bindThrows
        match items with
        | Some i =>
            bindThrows (convertSchemaNode i) (fun result => Ok (Some result))
        | None => Ok None
        end (fun items' =>
      Ok (MkGeminiSchema type' description nullable properties' required
            items' enum))))
  end.

(** [convertSchema]: [undefined] for a missing schema. *)
Definition convertSchema (schema : option JsonSchema)
    : Throws (option GeminiSchema) :=
  match schema with
  | Some s => bindThrows (convertSchemaNode s) (fun result => Ok (Some result))
  | None => Ok None
  end.

(** The function of [tools.map(...)]; [t.description || ''] is the empty
    string for a missing description. *)
Definition toolDeclaration (t : McpTool) : Throws FunctionDeclaration :=
  bindThrows (convertSchema (tool_inputSchema t)) (fun parameters =>
  Ok {| fd_name := tool_name t;
        fd_description := default [] (tool_description t);
        fd_parameters := parameters |}).

(** [getGeminiTools]: the conversion runs after the awaited listing, and
    what it throws is thrown by the call. *)
Definition getGeminiTools : M (list FunctionDeclaration) :=
  _ <- getClient ;;
  await McpListTools ;;
  w <- getWorld ;;
  let tools := listToolsResult E (history w) in
  liftThrows (mapThrows toolDeclaration tools).

Definition isNil {A : Type} (l : list A) : bool :=
  match l with
  | [] => true
  | _ => false
  end.

Definition callMcpTool (name : jsstring) (args : Json) : M ToolResult :=
  _ <- getClient ;;
  await (McpCallTool name args) ;;
  w <- getWorld ;;
  let result := callToolResult E (history w) in
  match result_content result with
  | None =>
      throw {| message := js "Cannot read properties of undefined" |}
  | Some items =>
      let textContent :=
        join [10; 10]
          (List.map item_text
             (List.filter
                (fun c => bool_decide (item_type c = js "text")) items)) in
      ret {| content := if isNil textContent
                        then JSON_stringify E (result_content result)
                        else textContent;
             isError := result_isError result |}
  end.

(** *** gemini.ts: the answer agent *)

Definition CONFIG_ERROR : jsstring :=
  js "設定エラー: GEMINI_API_KEYが設定されていません".

Definition AGENT_ERROR : jsstring :=
  js "回答の生成中にエラーが発生しました。".

(** [getModel]: the handle itself is local; the module variable [genAI]
    is filled on first use. *)
Definition getModel (tools : list FunctionDeclaration) : M unit :=
  if isNil (GEMINI_API_KEY cfg)
  then throw {| message := js "GEMINI_API_KEY is not set" |}
  else
    w <- getWorld ;;
    match genAI w with
    | Some _ => ret tt
    | None => setGenAI (Some {| apiKey := GEMINI_API_KEY cfg |})
    end.

(** [await chat.sendMessage(msg)]; the chat keeps the conversation, which
    the oracle reads from the history. *)
Definition sendMessage (msg : ChatMessage) : M GenerateContentResponse :=
  await (GeminiSendMessage msg) ;;
  w <- getWorld ;;
  ret (sendMessageResult E (history w)).

Definition MAX_ITERATIONS : nat := 10.

(** The body of [for (const call of functionCalls)]: one part is pushed
    for the call, whether [callMcpTool] returns or throws. *)
Definition executeTool (call : FunctionCall) : M Part :=
  tryCatch
    (toolResult <- callMcpTool (call_name call) (call_args call) ;;
     ret {| part_name := call_name call;
            part_response := ResponseContent (content toolResult) |})
    (fun err =>
       ret {| part_name := call_name call;
              part_response := ResponseError (message err) |}).

Fixpoint executeTools (calls : list FunctionCall) (parts : list Part)
  : M (list Part) :=
  match calls with
  | [] => ret parts
  | call :: rest =>
      part <- executeTool call ;;
      executeTools rest (parts ++ [part])
  end.

(** [while (iteration < MAX_ITERATIONS)]: the value is [result] when the
    loop is left, by [break] or by the bound. *)
Equations? toolLoop (iteration : nat) (result : GenerateContentResponse)
  : M GenerateContentResponse by wf (MAX_ITERATIONS - iteration)%nat lt :=
toolLoop iteration result with lt_dec iteration MAX_ITERATIONS := {
  | left _ =>
      requested <- liftThrows (functionCalls result) ;;
      match requested with
      | Some (call :: calls) =>
          parts <- executeTools (call :: calls) [] ;;
          result' <- sendMessage (MessageParts parts) ;;
          toolLoop (S iteration) result'
      | _ => ret result
      end
  | right _ => ret result }.
Proof. lia. Qed.

(** [generateAnswer(question)], the tool-calling agent the handler
    imports. *)
Definition generateAnswer (question : jsstring) : M GenerateAnswerResult :=
  if isNil (GEMINI_API_KEY cfg)
  then ret {| answer := CONFIG_ERROR; success := false |}
  else
    tryCatch
      (toolDeclarations <- getGeminiTools ;;
       getModel toolDeclarations ;;
       result <- sendMessage (MessageText question) ;;
       result <- toolLoop 0 result ;;
       answer <- liftThrows (response_text result) ;;
       ret {| answer := answer; success := true |})
      (fun _ => ret {| answer := AGENT_ERROR; success := false |}).

(** *** gemini.ts, the single-shot variant

    The repository also keeps the earlier [generateAnswer(question,
    passages)], which asks the model once over passages fetched
    beforehand.  It has the same name in the source. *)

Definition GENERATION_ERROR : jsstring :=
  js "回答の生成中にエラーが発生しました".

Definition EMPTY_ANSWER : jsstring :=
  js "回答を生成できませんでした".

(** [getModel()] of the single-shot variant. *)
Definition getModel_passages : M unit :=
  if isNil (GEMINI_API_KEY cfg)
  then throw {| message := js "GEMINI_API_KEY is not set" |}
  else
    w <- getWorld ;;
    match genAI w with
    | Some _ => ret tt
    | None => setGenAI (Some {| apiKey := GEMINI_API_KEY cfg |})
    end.

Definition userPrompt (question passages : jsstring) : jsstring :=
  js "## 質問" ++ [10] ++ question ++ [10; 10]
  ++ js "## 参照ドキュメント" ++ [10] ++ passages.

Definition generateAnswer_passages (question passages : jsstring)
  : M GenerateAnswerResult :=
  if isNil (GEMINI_API_KEY cfg)
  then ret {| answer := CONFIG_ERROR; success := false |}
  else
    getModel_passages ;;
    tryCatch
      (result <- sendMessage (MessageText (userPrompt question passages)) ;;
       answer <- liftThrows (response_text result) ;;
       if isNil answer
       then ret {| answer := EMPTY_ANSWER; success := false |}
       else ret {| answer := answer; success := true |})
      (fun _ => ret {| answer := GENERATION_ERROR; success := false |}).

(** *** index.ts: the Pub/Sub push endpoint *)

Definition HELP_MESSAGE : jsstring :=
  js "質問を入力してください。例: `@bot OpenRTBとは？`".

Definition respond (code : N) (text : string) : HttpResponse :=
  {| status := code; body := js text |}.

(** The handler from the duplicate check on, for a decoded event. *)
Definition handleEvent (event : SlackEvent) : M HttpResponse :=
  processed <- isEventProcessed (event_id event) ;;
  if (processed : bool) then ret (respond 200 "Already processed")
  else
    tryCatch
      (text <- match text event with
               | Some t => ret t
               | None =>
                   throw {| message :=
                              js "Cannot read properties of undefined" |}
               end ;;
       let question := extractQuestion text in
       if isNil question then
         replyToSlack (channel event) (thread_ts event) HELP_MESSAGE ;;
         markEventProcessed (event_id event) (channel event) (ts event) ;;
         ret (respond 200 "OK")
       else
         geminiResult <- generateAnswer question ;;
         let replyText := answer geminiResult in
         replyToSlack (channel event) (thread_ts event) replyText ;;
         markEventProcessed (event_id event) (channel event) (ts event) ;;
         ret (respond 200 "OK"))
      (fun _ => ret (respond 500 "Processing failed")).

(** [app.post('/pubsub/push', ...)].  The log line that follows the
    decoding reads [event.event_id] outside every [try]: on a payload that
    parsed to [null] the handler throws there, before any response. *)
Definition pubsubPush (reqBody : PubSubMessage) : M HttpResponse :=
  match message_ reqBody with
  | None => ret (respond 400 "Invalid message")
  | Some envelope =>
      match data envelope with
      | None | Some [] => ret (respond 400 "Invalid message")
      | Some encoded =>
          match decodeEvent E encoded with
          | Raise _ => ret (respond 400 "Invalid message encoding")
          | Ok ParsedNull =>
              throw {| message := js "Cannot read properties of null" |}
          | Ok (ParsedEvent event) => handleEvent event
          end
      end
  end.

End Worker.

(** ** Reading a history *)

Definition isLedgerRead (r : Request) : bool :=
  match r with FirestoreGet _ => true | _ => false end.

Definition isMarkerWrite (r : Request) : bool :=
  match r with FirestoreSet _ _ => true | _ => false end.

Definition isReply (r : Request) : bool :=
  match r with SlackPostMessage _ _ _ => true | _ => false end.

Definition isMcpRequest (r : Request) : bool :=
  match r with
  | McpConnect _ | McpListTools | McpCallTool _ _ => true
  | _ => false
  end.

Definition isConnect (r : Request) : bool :=
  match r with McpConnect _ => true | _ => false end.

Definition isCatalogFetch (r : Request) : bool :=
  match r with McpListTools => true | _ => false end.

Definition isToolCall (r : Request) : bool :=
  match r with McpCallTool _ _ => true | _ => false end.

Definition isModelCall (r : Request) : bool :=
  match r with GeminiSendMessage _ => true | _ => false end.

(** A batch of tool results sent back to the model: one cycle of the
    agent's loop. *)
Definition isToolBatch (r : Request) : bool :=
  match r with GeminiSendMessage (MessageParts _) => true | _ => false end.

(** The requests of the handler itself, as opposed to those of the
    agent. *)
Definition isHandlerRequest (r : Request) : bool :=
  isLedgerRead r || isMarkerWrite r || isReply r.

(** How many entries of a history are requests of a given kind. *)
Definition count (p : Request -> bool) (h : list Entry) : nat :=
  length (List.filter (fun e => p (request e)) h).

Definition weight (p : Request -> bool) (r : Request) : nat :=
  if p r then 1%nat else 0%nat.

(** Whether the collaborator answers the request [r] after history [h]. *)
Definition answers (E : Env) (h : list Entry) (r : Request) : bool :=
  match fault E h r with
  | None => true
  | Some _ => false
  end.

(** The loop's test [functionCalls && functionCalls.length > 0] on a turn
    whose accessor does not throw. *)
Definition requestsTools (result : GenerateContentResponse) : bool :=
  match functionCalls result with
  | Ok (Some (_ :: _)) => true
  | _ => false
  end.

(** The request [callMcpTool] sends for a function call. *)
Definition toolRequest (call : FunctionCall) : Request :=
  McpCallTool (call_name call) (call_args call).

(** A marker write is preceded by a reply the sink accepted.  Histories
    are newest first, so what precedes an entry follows it in the list. *)
Definition markerOnlyAfterReply (h : list Entry) : Prop :=
  forall after e before,
    h = after ++ e :: before ->
    isMarkerWrite (request e) = true ->
    exists r, In r before /\ isReply (request r) = true
              /\ succeeded r = true.

Definition replyRejected (h : list Entry) : Prop :=
  exists r, In r h /\ isReply (request r) = true /\ succeeded r = false.

(** The part [executeTool] pushes for a call when the client is cached:
    read off the adapter's one request and its outcome after history
    [h]. *)
Definition partOf (E : Env) (h : list Entry) (call : FunctionCall) : Part :=
  {| part_name := call_name call;
     part_response :=
       match fault E h (toolRequest call) with
       | Some e => ResponseError (message e)
       | None =>
           let result :=
             callToolResult E
               ({| request := toolRequest call; succeeded := true |} :: h) in
           match result_content result with
           | None =>
               ResponseError (js "Cannot read properties of undefined")
           | Some items =>
               let textContent :=
                 join [10; 10]
                   (List.map item_text
                      (List.filter
                         (fun c => bool_decide (item_type c = js "text"))
                         items)) in
               ResponseContent
                 (if isNil textContent
                  then JSON_stringify E (result_content result)
                  else textContent)
           end
       end |}.

(** [emits p n m]: from every world, [m] adds at most [n] requests of kind
    [p] to the history and leaves the ledger's store as it was. *)
Definition emits {A : Type} (p : Request -> bool) (n : nat) (m : M A) : Prop :=
  forall w, exists new,
    history (snd (m w)) = new ++ history w
    /\ (count p new <= n)%nat
    /\ processed_events (snd (m w)) = processed_events w.

(** [total m]: [m] returns from every world, it never throws. *)
Definition total {A : Type} (m : M A) : Prop :=
  forall w, exists a w', m w = (Ok a, w').

(** A failed call is answered by an error part. *)
Definition failureReported (e : Entry) (part : Part) : Prop :=
  succeeded e = false -> exists msg, part_response part = ResponseError msg.

(** ** The paths of a delivery *)

Section Delivery.

Variable cfg : Config.
Variable E : Env.
Variable event : SlackEvent.

Definition replyRequest (replyText : jsstring) : Request :=
  SlackPostMessage (channel event) (thread_ts event) replyText.

(** What the handler does between the duplicate check and the reply: the
    help message needs nothing, a question runs the agent. *)
Inductive Prepared (w1 : World) : World -> jsstring -> Prop :=
| PreparedHelp (t : jsstring) :
    text event = Some t ->
    extractQuestion t = [] ->
    Prepared w1 w1 HELP_MESSAGE
| PreparedAnswer (t : jsstring) (g : GenerateAnswerResult) (w2 : World) :
    text event = Some t ->
    extractQuestion t <> [] ->
    generateAnswer cfg E (extractQuestion t) w1 = (Ok g, w2) ->
    Prepared w1 w2 (answer g).

(** The four ways a delivery ends. *)
Inductive Outcome (w : World) : HttpResponse -> World -> Prop :=
| OutcomeDuplicate (w1 : World) :
    isEventProcessed E (event_id event) w = (Ok true, w1) ->
    Outcome w (respond 200 "Already processed") w1
| OutcomeNoText (w1 : World) :
    isEventProcessed E (event_id event) w = (Ok false, w1) ->
    text event = None ->
    Outcome w (respond 500 "Processing failed") w1
| OutcomeRejected (w1 w2 : World) (replyText : jsstring) :
    isEventProcessed E (event_id event) w = (Ok false, w1) ->
    Prepared w1 w2 replyText ->
    answers E (history w2) (replyRequest replyText) = false ->
    Outcome w (respond 500 "Processing failed")
      (pushEntry {| request := replyRequest replyText; succeeded := false |}
                 w2)
| OutcomeDelivered (w1 w2 : World) (replyText : jsstring) :
    isEventProcessed E (event_id event) w = (Ok false, w1) ->
    Prepared w1 w2 replyText ->
    answers E (history w2) (replyRequest replyText) = true ->
    Outcome w (respond 200 "OK")
      (snd (markEventProcessed E (event_id event) (channel event) (ts event)
              (pushEntry {| request := replyRequest replyText;
                            succeeded := true |} w2))).

(** The history a delivery leaves, path by path (newest entry first). *)
Inductive Trace (w : World) (resp : HttpResponse) (w' : World)
  : list Entry -> Prop :=
| TraceDuplicate :
    resp = respond 200 "Already processed" ->
    is_Some (processed_events w !! event_id event) ->
    processed_events w' = processed_events w ->
    Trace w resp w'
      [{| request := FirestoreGet (event_id event); succeeded := true |}]
| TraceNoText (ok : bool) :
    resp = respond 500 "Processing failed" ->
    text event = None ->
    processed_events w' = processed_events w ->
    Trace w resp w'
      [{| request := FirestoreGet (event_id event); succeeded := ok |}]
| TraceRejected (ok : bool) (agentNew : list Entry) (replyText : jsstring) :
    resp = respond 500 "Processing failed" ->
    count isHandlerRequest agentNew = 0%nat ->
    processed_events w' = processed_events w ->
    Trace w resp w'
      ({| request := replyRequest replyText; succeeded := false |}
       :: agentNew
       ++ [{| request := FirestoreGet (event_id event); succeeded := ok |}])
| TraceDelivered (ok stored : bool) (agentNew : list Entry)
    (replyText : jsstring) (marker : Marker) :
    resp = respond 200 "OK" ->
    count isHandlerRequest agentNew = 0%nat ->
    marker_channel marker = channel event ->
    marker_ts marker = ts event ->
    processed_events w' =
      (if stored then <[event_id event := marker]> (processed_events w)
       else processed_events w) ->
    Trace w resp w'
      ({| request := FirestoreSet (event_id event) marker;
          succeeded := stored |}
       :: {| request := replyRequest replyText; succeeded := true |}
       :: agentNew
       ++ [{| request := FirestoreGet (event_id event); succeeded := ok |}]).

End Delivery.

(** ** Concrete worlds and environments *)

Module Sample.

Definition cfg : Config :=
  {| GEMINI_API_KEY := js "key";
     MODEL_NAME := js "gemini-1.5-flash";
     MCP_URL := js "https://iab-docs.apti.jp/mcp" |}.

Definition cfg_no_key : Config :=
  {| GEMINI_API_KEY := [];
     MODEL_NAME := js "gemini-1.5-flash";
     MCP_URL := js "https://iab-docs.apti.jp/mcp" |}.

Definition start : World :=
  {| history := [];
     processed_events := ∅;
     client := None;
     genAI := None |}.

Definition searchCall : FunctionCall :=
  {| call_name := js "search";
     call_args := JObject [(js "query", JString (js "OpenRTB"))] |}.

Definition searchTool : McpTool :=
  {| tool_name := js "search";
     tool_description := Some (js "Search the documents");
     tool_inputSchema :=
       Some (MkJsonSchema (Some (JString (js "object"))) None None
               (Some [(js "query",
                       MkJsonSchema (Some (JString (js "string"))) None None
                         None None None None)])
               (Some [js "query"]) None None) |}.

(** The declaration [getGeminiTools] makes of [searchTool]. *)
Definition searchDeclaration : FunctionDeclaration :=
  {| fd_name := js "search";
     fd_description := js "Search the documents";
     fd_parameters :=
       Some (MkGeminiSchema OBJECT None None
               (Some [(js "query",
                       MkGeminiSchema STRING None None None None None None)])
               (Some [js "query"]) None None) |}.

Definition passage : CallToolResult :=
  {| result_content :=
       Some [{| item_type := js "text"; item_text := Some (js "passage") |}];
     result_isError := None |}.

Definition event (t : string) : SlackEvent :=
  {| event_id := js "E1";
     event_time := 0;
     team_id := js "T";
     channel := js "C1";
     user := js "U1";
     text := Some (js t);
     ts := js "100.1";
     thread_ts := js "T1" |}.

(** An event without [text]. *)
Definition textless : SlackEvent :=
  {| event_id := js "E2";
     event_time := 0;
     team_id := js "T";
     channel := js "C1";
     user := js "U1";
     text := None;
     ts := js "100.2";
     thread_ts := js "T1" |}.

(** The payloads of the scenarios, in base64 as the subscription pushes
    them, with what they decode to: the JSON of [event t] for three texts
    (fields in the order of the interface, no white space), the JSON of
    [textless], and the JSON text [null]. *)
Definition payloads : list (jsstring * Parsed) :=
  [(js "eyJldmVudF9pZCI6IkUxIiwiZXZlbnRfdGltZSI6MCwidGVhbV9pZCI6IlQiLCJjaGFubmVsIjoiQzEiLCJ1c2VyIjoiVTEiLCJ0ZXh0IjoiPEBVMEJPVD4gT3BlblJUQiIsInRzIjoiMTAwLjEiLCJ0aHJlYWRfdHMiOiJUMSJ9",
    ParsedEvent (event "<@U0BOT> OpenRTB"));
   (js "eyJldmVudF9pZCI6IkUxIiwiZXZlbnRfdGltZSI6MCwidGVhbV9pZCI6IlQiLCJjaGFubmVsIjoiQzEiLCJ1c2VyIjoiVTEiLCJ0ZXh0IjoiPEBCT1Q+IE9wZW5SVELjgajjga8iLCJ0cyI6IjEwMC4xIiwidGhyZWFkX3RzIjoiVDEifQ==",
    ParsedEvent (event "<@BOT> OpenRTBとは"));
   (js "eyJldmVudF9pZCI6IkUxIiwiZXZlbnRfdGltZSI6MCwidGVhbV9pZCI6IlQiLCJjaGFubmVsIjoiQzEiLCJ1c2VyIjoiVTEiLCJ0ZXh0IjoiPEBVMEJPVD4gIiwidHMiOiIxMDAuMSIsInRocmVhZF90cyI6IlQxIn0=",
    ParsedEvent (event "<@U0BOT> "));
   (js "eyJldmVudF9pZCI6IkUyIiwiZXZlbnRfdGltZSI6MCwidGVhbV9pZCI6IlQiLCJjaGFubmVsIjoiQzEiLCJ1c2VyIjoiVTEiLCJ0cyI6IjEwMC4yIiwidGhyZWFkX3RzIjoiVDEifQ==",
    ParsedEvent textless);
   (js "bnVsbA==", ParsedNull)].

(** The decoding of the scenarios: a payload above decodes to its value;
    the other bodies the scenarios push ([bm90IGpzb24=], the base64 of
    [not json]) are not JSON, and [JSON.parse] throws. *)
Definition decode (encoded : jsstring) : Throws Parsed :=
  match List.find (fun entry => bool_decide (fst entry = encoded)) payloads
  with
  | Some entry => Ok (snd entry)
  | None => Raise {| message := js "Unexpected token" |}
  end.

(** Every service answers; the model asks for one search on every turn
    and never writes text. *)
Definition alwaysTools : Env :=
  {| fault := fun _ _ => None;
     now := fun _ => 0;
     listToolsResult := fun _ => [searchTool];
     callToolResult := fun _ => passage;
     sendMessageResult := fun _ =>
       {| functionCalls := Ok (Some [searchCall]);
          response_text := Ok [] |};
     decodeEvent := decode;
     isURL := fun _ => true;
     JSON_stringify := fun _ => js "[]" |}.

(** Every service answers; the model asks for one search, then writes
    its answer. *)
Definition healthy : Env :=
  {| fault := fun _ _ => None;
     now := fun _ => 0;
     listToolsResult := fun _ => [searchTool];
     callToolResult := fun _ => passage;
     sendMessageResult := fun h =>
       if (count isToolBatch h =? 0)%nat
       then {| functionCalls := Ok (Some [searchCall]);
               response_text := Ok [] |}
       else {| functionCalls := Ok None;
               response_text := Ok (js "OpenRTB は入札の規格です。") |};
     decodeEvent := decode;
     isURL := fun _ => true;
     JSON_stringify := fun _ => js "[]" |}.

(** Slack is down; everything else answers. *)
Definition slackDown : Env :=
  {| fault := fun _ r =>
       if isReply r then Some {| message := js "ECONNREFUSED" |} else None;
     now := fun _ => 0;
     listToolsResult := fun _ => [searchTool];
     callToolResult := fun _ => passage;
     sendMessageResult := fun _ =>
       {| functionCalls := Ok None; response_text := Ok (js "answer") |};
     decodeEvent := decode;
     isURL := fun _ => true;
     JSON_stringify := fun _ => js "[]" |}.

(** The connection to the MCP server drops on the first tool call of the
    process and is back for every later one. *)
Definition flaky : Env :=
  {| fault := fun h r =>
       if isToolCall r && (count isToolCall h =? 0)%nat
       then Some {| message := js "fetch failed" |}
       else None;
     now := fun _ => 0;
     listToolsResult := fun _ => [searchTool];
     callToolResult := fun _ => passage;
     sendMessageResult := fun _ =>
       {| functionCalls := Ok None; response_text := Ok (js "answer") |};
     decodeEvent := decode;
     isURL := fun _ => true;
     JSON_stringify := fun _ => js "[]" |}.

Definition glossaryTool : McpTool :=
  {| tool_name := js "glossary";
     tool_description := None;
     tool_inputSchema := None |}.

(** The declaration [getGeminiTools] makes of [glossaryTool]. *)
Definition glossaryDeclaration : FunctionDeclaration :=
  {| fd_name := js "glossary";
     fd_description := [];
     fd_parameters := None |}.

(** The server gains a tool after the first listing. *)
Definition growingCatalog : Env :=
  {| fault := fun _ _ => None;
     now := fun _ => 0;
     listToolsResult := fun h =>
       if (count isCatalogFetch h <=? 1)%nat then [searchTool]
       else [searchTool; glossaryTool];
     callToolResult := fun _ => passage;
     sendMessageResult := fun _ =>
       {| functionCalls := Ok None; response_text := Ok (js "answer") |};
     decodeEvent := decode;
     isURL := fun _ => true;
     JSON_stringify := fun _ => js "[]" |}.

(** A process whose MCP client has been created. *)
Definition connected : World :=
  {| history := [{| request := McpConnect (MCP_URL cfg); succeeded := true |}];
     processed_events := ∅;
     client := Some {| client_name := js "iab-docs-bot";
                       client_version := js "1.0.0" |};
     genAI := None |}.

End Sample.


(** ** Further observations *)

(** A mention as Slack writes it: [<@], an id, [>]. *)
Definition mention (id : jsstring) : jsstring := 60 :: 64 :: id ++ [62].

(** An id the handler's pattern accepts: one or more of [[A-Z0-9]]. *)
Definition isMentionId (id : jsstring) : Prop :=
  id <> [] /\ forallb isMentionIdChar id = true.

Definition isBlank (s : jsstring) : Prop := forallb isWhiteSpace s = true.

(** A text made of mentions, each after some white space. *)
Definition mentionsOnly (pieces : list (jsstring * jsstring)) : jsstring :=
  List.concat (List.map (fun piece => fst piece ++ mention (snd piece)) pieces).

(** The property names of a schema, outermost first: those of each
    property before those of the next, then those under [items]. *)
Fixpoint propertyNames (schema : JsonSchema) : list jsstring :=
  match schema with
  | MkJsonSchema _ _ _ properties _ items _ =>
      match properties with
      | Some ps =>
          List.flat_map (fun entry => fst entry :: propertyNames (snd entry))
            ps
      | None => []
      end
      ++ match items with
         | Some i => propertyNames i
         | None => []
         end
  end.

Fixpoint geminiPropertyNames (schema : GeminiSchema) : list jsstring :=
  match schema with
  | MkGeminiSchema _ _ _ properties _ items _ =>
      match properties with
      | Some ps =>
          List.flat_map
            (fun entry => fst entry :: geminiPropertyNames (snd entry)) ps
      | None => []
      end
      ++ match items with
         | Some i => geminiPropertyNames i
         | None => []
         end
  end.

(** The part of a schema an assignment [result.properties[key] = ...] can
    carry over: everything but the properties named [__proto__], at every
    depth. *)
Definition ownEntries (own : JsonSchema -> JsonSchema)
    (entries : list (jsstring * JsonSchema)) : list (jsstring * JsonSchema) :=
  List.flat_map
    (fun entry =>
       if bool_decide (fst entry = PROTO) then []
       else [(fst entry, own (snd entry))])
    entries.

Fixpoint ownPart (schema : JsonSchema) : JsonSchema :=
  match schema with
  | MkJsonSchema type description nullable properties required items enum =>
      MkJsonSchema type description nullable
        (option_map (ownEntries ownPart) properties)
        required
        (option_map ownPart items)
        enum
  end.

(** A [type] that is present, not [null] and not a string: a value without
    a method [toLowerCase]. *)
Definition hasNoLowerCase (type : option Json) : bool :=
  match type with
  | None | Some JNull | Some (JString _) => false
  | Some _ => true
  end.

(** The types the nodes of a schema declare, in the same order. *)
Fixpoint declaredTypes (schema : JsonSchema) : list (option Json) :=
  match schema with
  | MkJsonSchema type _ _ properties _ items _ =>
      type
      :: match properties with
         | Some ps => List.flat_map (fun entry => declaredTypes (snd entry)) ps
         | None => []
         end
      ++ match items with
         | Some i => declaredTypes i
         | None => []
         end
  end.

Fixpoint nodeTypes (schema : GeminiSchema) : list SchemaType :=
  match schema with
  | MkGeminiSchema type _ _ properties _ items _ =>
      type
      :: match properties with
         | Some ps => List.flat_map (fun entry => nodeTypes (snd entry)) ps
         | None => []
         end
      ++ match items with
         | Some i => nodeTypes i
         | None => []
         end
  end.

(** The schema of the tool declares, at some depth, a type without
    [toLowerCase]. *)
Definition conversionThrows (tool : McpTool) : bool :=
  match tool_inputSchema tool with
  | Some schema => existsb hasNoLowerCase (declaredTypes schema)
  | None => false
  end.

(** What [convertSchema] does with a schema that is present: it throws
    when a node declares a type without [toLowerCase]; otherwise it
    returns a schema with the property names and the mapped types of the
    part an assignment carries over. *)
Definition converted_as_declared (schema : JsonSchema) : Prop :=
  if existsb hasNoLowerCase (declaredTypes schema)
  then convertSchemaNode schema = Raise TYPE_ERROR
  else exists converted,
         convertSchemaNode schema = Ok converted
         /\ geminiPropertyNames converted = propertyNames (ownPart schema)
         /\ List.map Ok (nodeTypes converted)
            = List.map mapSchemaType (declaredTypes (ownPart schema)).

(** The type names [mapSchemaType] knows besides [string]. *)
Definition knownTypeNames : list jsstring :=
  [js "number"; js "integer"; js "boolean"; js "array"; js "object"].

(** The world after [client = new Client(...)]. *)
Definition withClient (c : McpClient) (w : World) : World :=
  snd (setClient (Some c) w).

Definition theClient : McpClient :=
  {| client_name := js "iab-docs-bot"; client_version := js "1.0.0" |}.



(** The process has connected to the MCP server at most once, and not at
    all while it has no client. *)
Definition connectedOnce (w : World) : Prop :=
  (count isConnect (history w) <= 1)%nat
  /\ (client w = None -> count isConnect (history w) = 0%nat).

(** [keeps I m]: [m] takes worlds in [I] to worlds in [I]. *)
Definition keeps {A : Type} (I : World -> Prop) (m : M A) : Prop :=
  forall w, I w -> I (snd (m w)).

Module Cases.

(** The MCP server refuses connections; everything else answers. *)
Definition noServer : Env :=
  {| fault := fun _ r =>
       if isConnect r then Some {| message := js "ECONNREFUSED" |} else None;
     now := fun _ => 0;
     listToolsResult := fun _ => [Sample.searchTool];
     callToolResult := fun _ => Sample.passage;
     sendMessageResult := fun _ =>
       {| functionCalls := Ok None; response_text := Ok (js "answer") |};
     decodeEvent := Sample.decode;
     isURL := fun _ => true;
     JSON_stringify := fun _ => js "[]" |}.

(** [MCP_URL] is not a URL. *)
Definition badUrl : Env :=
  {| fault := fun _ _ => None;
     now := fun _ => 0;
     listToolsResult := fun _ => [Sample.searchTool];
     callToolResult := fun _ => Sample.passage;
     sendMessageResult := fun _ =>
       {| functionCalls := Ok None; response_text := Ok (js "answer") |};
     decodeEvent := Sample.decode;
     isURL := fun _ => false;
     JSON_stringify := fun _ => js "[]" |}.

(** The model answers at once, without asking for a tool. *)
Definition direct : Env :=
  {| fault := fun _ _ => None;
     now := fun _ => 7;
     listToolsResult := fun _ => [Sample.searchTool; Sample.glossaryTool];
     callToolResult := fun _ => Sample.passage;
     sendMessageResult := fun _ =>
       {| functionCalls := Ok None; response_text := Ok (js "answer") |};
     decodeEvent := Sample.decode;
     isURL := fun _ => true;
     JSON_stringify := fun _ => js "[]" |}.

(** The model writes nothing; the store refuses writes. *)
Definition silent : Env :=
  {| fault := fun _ r =>
       if isMarkerWrite r then Some {| message := js "UNAVAILABLE" |}
       else None;
     now := fun _ => 7;
     listToolsResult := fun _ => [];
     callToolResult := fun _ =>
       {| result_content :=
            Some [{| item_type := js "image"; item_text := None |}];
          result_isError := Some true |};
     sendMessageResult := fun _ =>
       {| functionCalls := Ok (Some []); response_text := Ok [] |};
     decodeEvent := Sample.decode;
     isURL := fun _ => true;
     JSON_stringify := fun _ => js "[{}]" |}.

Definition body (encoded : string) : PubSubMessage :=
  {| message_ := Some {| data := Some (js encoded);
                         messageId := js "1";
                         publishTime := js "2024" |};
     subscription := js "sub" |}.

(** A tool whose argument is a string or null; JSON Schema writes the
    union as an array of type names. *)
Definition lookupTool : McpTool :=
  {| tool_name := js "lookup";
     tool_description := Some (js "Look a term up");
     tool_inputSchema :=
       Some (MkJsonSchema (Some (JString (js "object"))) None None
               (Some [(js "term",
                       MkJsonSchema
                         (Some (JArray [JString (js "string");
                                        JString (js "null")]))
                         None None None None None None)])
               None None None) |}.

(** Every service answers; the catalog holds [lookupTool]. *)
Definition unionCatalog : Env :=
  {| fault := fun _ _ => None;
     now := fun _ => 0;
     listToolsResult := fun _ => [Sample.searchTool; lookupTool];
     callToolResult := fun _ => Sample.passage;
     sendMessageResult := fun _ =>
       {| functionCalls := Ok None; response_text := Ok (js "answer") |};
     decodeEvent := Sample.decode;
     isURL := fun _ => true;
     JSON_stringify := fun _ => js "[]" |}.

(** The push of [Sample.event "<@BOT> OpenRTBとは"]. *)
Definition question : PubSubMessage :=
  body "eyJldmVudF9pZCI6IkUxIiwiZXZlbnRfdGltZSI6MCwidGVhbV9pZCI6IlQiLCJjaGFubmVsIjoiQzEiLCJ1c2VyIjoiVTEiLCJ0ZXh0IjoiPEBCT1Q+IE9wZW5SVELjgajjga8iLCJ0cyI6IjEwMC4xIiwidGhyZWFkX3RzIjoiVDEifQ==".

End Cases.

(** The body carries a payload that parses to [null]. *)
Definition parsesToNull (E : Env) (reqBody : PubSubMessage) : Prop :=
  exists envelope encoded,
    message_ reqBody = Some envelope
    /\ data envelope = Some encoded
    /\ encoded <> []
    /\ decodeEvent E encoded = Ok ParsedNull.

(** The deliveries of a process, handled one after the other. *)
Fixpoint serve (cfg : Config) (E : Env) (bodies : list PubSubMessage)
    (w : World) : World :=
  match bodies with
  | [] => w
  | reqBody :: rest => serve cfg E rest (snd (pubsubPush cfg E reqBody w))
  end.

(** The text [callMcpTool] makes of the fragments of a result. *)
Definition textOf (E : Env) (items : list ContentItem) : jsstring :=
  let textContent :=
    join [10; 10]
      (List.map item_text
         (List.filter (fun c => bool_decide (item_type c = js "text"))
            items)) in
  if isNil textContent then JSON_stringify E (Some items) else textContent.

(** ** Running the primitives *)

Section Runs.

Variable cfg : Config.
Variable E : Env.

Lemma await_run (r : Request) (w : World) :
  await E r w =
  match fault E (history w) r with
  | Some e => (Raise e, pushEntry {| request := r; succeeded := false |} w)
  | None => (Ok tt, pushEntry {| request := r; succeeded := true |} w)
  end.
Proof.
  unfold await, bind, getWorld.
  destruct (fault E (history w) r); reflexivity.
Qed.

Lemma isEventProcessed_run (eventId : jsstring) (w : World) :
  isEventProcessed E eventId w =
  (Ok (answers E (history w) (FirestoreGet eventId)
       && bool_decide (is_Some (processed_events w !! eventId))),
   pushEntry {| request := FirestoreGet eventId;
                succeeded := answers E (history w) (FirestoreGet eventId) |}
             w).
Proof.
  unfold isEventProcessed, tryCatch, bind, answers.
  rewrite await_run.
  destruct (fault E (history w) (FirestoreGet eventId)); reflexivity.
Qed.

Lemma markEventProcessed_run (eventId channel ts : jsstring) (w : World) :
  let marker := {| processed_at := now E (history w);
                   marker_channel := channel;
                   marker_ts := ts |} in
  markEventProcessed E eventId channel ts w =
  (Ok tt,
   if answers E (history w) (FirestoreSet eventId marker)
   then putMarker eventId marker
          (pushEntry {| request := FirestoreSet eventId marker;
                        succeeded := true |} w)
   else pushEntry {| request := FirestoreSet eventId marker;
                     succeeded := false |} w).
Proof.
  unfold markEventProcessed, tryCatch, bind, getWorld, answers. simpl.
  rewrite await_run.
  destruct (fault E (history w) _); reflexivity.
Qed.

Lemma getClient_cached (c : McpClient) (w : World) :
  client w = Some c -> getClient cfg E w = (Ok c, w).
Proof.
  intros Hc. unfold getClient, bind, getWorld. rewrite Hc. reflexivity.
Qed.

Lemma executeTool_cached (c : McpClient) (call : FunctionCall) (w : World) :
  client w = Some c ->
  executeTool cfg E call w =
  (Ok (partOf E (history w) call),
   pushEntry {| request := toolRequest call;
                succeeded := answers E (history w) (toolRequest call) |} w).
Proof.
  intros Hc.
  unfold executeTool, callMcpTool, tryCatch, bind, partOf, answers, toolRequest.
  rewrite (getClient_cached c w Hc), await_run.
  destruct (fault E (history w) _); [reflexivity|].
  unfold getWorld. simpl.
  destruct (result_content _); reflexivity.
Qed.

End Runs.

(** ** What a computation adds to the history *)

Lemma count_app (p : Request -> bool) (h1 h2 : list Entry) :
  count p (h1 ++ h2) = (count p h1 + count p h2)%nat.
Proof.
  unfold count. rewrite List.filter_app, List.length_app. reflexivity.
Qed.

Lemma count_cons (p : Request -> bool) (e : Entry) (h : list Entry) :
  count p (e :: h) = (weight p (request e) + count p h)%nat.
Proof.
  unfold count, weight. simpl. destruct (p (request e)); reflexivity.
Qed.

Lemma count_zero_not_In (p : Request -> bool) (h : list Entry) (e : Entry) :
  count p h = 0%nat -> In e h -> p (request e) = false.
Proof.
  induction h as [|x h IH]; simpl; [tauto|].
  rewrite count_cons. unfold weight.
  intros Hc [->|Hin].
  - destruct (p (request e)); [discriminate|reflexivity].
  - apply IH; [|exact Hin]. destruct (p (request x)); simpl in Hc; lia.
Qed.

Section Emits.

Context {A B : Type}.
Variable p : Request -> bool.

Lemma emits_le (n n' : nat) (m : M A) :
  (n <= n')%nat -> emits p n m -> emits p n' m.
Proof.
  intros Hle Hm w. destruct (Hm w) as (new & Hh & Hc & Hs).
  exists new. split; [exact Hh|]. split; [lia | exact Hs].
Qed.

Lemma emits_ret (a : A) : emits p 0 (ret a).
Proof. intros w. exists []. simpl. unfold count. simpl. auto. Qed.

Lemma emits_throw (e : JsError) : emits p 0 (@throw A e).
Proof. intros w. exists []. simpl. unfold count. simpl. auto. Qed.

Lemma emits_liftThrows (t : Throws A) : emits p 0 (liftThrows t).
Proof. destruct t; [apply emits_ret | apply emits_throw]. Qed.

Lemma emits_bind (n1 n2 : nat) (m : M A) (k : A -> M B) :
  emits p n1 m -> (forall a, emits p n2 (k a)) ->
  emits p (n1 + n2) (bind m k).
Proof.
  intros Hm Hk w. unfold bind.
  destruct (Hm w) as (new1 & Hh1 & Hc1 & Hs1).
  destruct (m w) as [[a|e] w1]; simpl in *.
  - destruct (Hk a w1) as (new2 & Hh2 & Hc2 & Hs2).
    exists (new2 ++ new1). rewrite Hh2, Hh1, Hs2, Hs1, count_app, app_assoc.
    split; [reflexivity|]. split; [lia | reflexivity].
  - exists new1. split; [exact Hh1|]. split; [lia | exact Hs1].
Qed.

Lemma emits_tryCatch (n1 n2 : nat) (m : M A) (handler : JsError -> M A) :
  emits p n1 m -> (forall e, emits p n2 (handler e)) ->
  emits p (n1 + n2) (tryCatch m handler).
Proof.
  intros Hm Hk w. unfold tryCatch.
  destruct (Hm w) as (new1 & Hh1 & Hc1 & Hs1).
  destruct (m w) as [[a|e] w1]; simpl in *.
  - exists new1. split; [exact Hh1|]. split; [lia | exact Hs1].
  - destruct (Hk e w1) as (new2 & Hh2 & Hc2 & Hs2).
    exists (new2 ++ new1). rewrite Hh2, Hh1, Hs2, Hs1, count_app, app_assoc.
    split; [reflexivity|]. split; [lia | reflexivity].
Qed.

End Emits.

Lemma emits_getWorld (p : Request -> bool) : emits p 0 getWorld.
Proof. intros w. exists []. unfold count. simpl. auto. Qed.

Lemma emits_setClient (p : Request -> bool) (c : option McpClient) :
  emits p 0 (setClient c).
Proof. intros w. exists []. unfold count. simpl. auto. Qed.

Lemma emits_setGenAI (p : Request -> bool) (g : option GoogleGenerativeAI) :
  emits p 0 (setGenAI g).
Proof. intros w. exists []. unfold count. simpl. auto. Qed.

Lemma emits_await (E : Env) (p : Request -> bool) (r : Request) :
  emits p (weight p r) (await E r).
Proof.
  intros w. rewrite await_run.
  exists [{| request := r; succeeded := answers E (history w) r |}].
  unfold answers.
  destruct (fault E (history w) r); simpl;
    rewrite count_cons; unfold count; simpl; repeat split; lia.
Qed.

Lemma total_ret {A : Type} (a : A) : total (ret a).
Proof. intros w. exists a, w. reflexivity. Qed.

Lemma total_tryCatch {A : Type} (m : M A) (handler : JsError -> M A) :
  (forall e, total (handler e)) -> total (tryCatch m handler).
Proof.
  intros Hh w. unfold tryCatch.
  destruct (m w) as [[a|e] w1]; [exists a, w1; reflexivity | apply Hh].
Qed.

(** ** The agent's requests *)

Lemma toolLoop_step (cfg : Config) (E : Env) (iteration : nat)
    (result : GenerateContentResponse) :
  toolLoop cfg E iteration result =
  if lt_dec iteration MAX_ITERATIONS then
    bind (liftThrows (functionCalls result)) (fun requested =>
      match requested with
      | Some (call :: calls) =>
          bind (executeTools cfg E (call :: calls) []) (fun parts =>
          bind (sendMessage E (MessageParts parts)) (fun result' =>
          toolLoop cfg E (S iteration) result'))
      | _ => ret result
      end)
  else ret result.
Proof.
  rewrite toolLoop_equation_1.
  destruct (lt_dec iteration MAX_ITERATIONS); reflexivity.
Qed.

Section AgentEmits.

Variable cfg : Config.
Variable E : Env.
Variable p : Request -> bool.

(** [p] is a kind of request the tool adapter does not send. *)
Hypothesis p_not_mcp : forall r, isMcpRequest r = true -> p r = false.

Lemma emits_await_mcp (r : Request) :
  isMcpRequest r = true -> emits p 0 (await E r).
Proof.
  intros Hr. generalize (emits_await E p r).
  unfold weight. rewrite (p_not_mcp r Hr). trivial.
Qed.

Lemma emits_getClient : emits p 0 (getClient cfg E).
Proof.
  unfold getClient.
  apply (emits_bind p 0 0); [apply emits_getWorld|]. intros w.
  destruct (client w); [apply emits_ret|].
  destruct (isURL E (MCP_URL cfg)); [|apply emits_throw].
  apply (emits_bind p 0 0); [apply emits_setClient|]. intros _.
  apply (emits_bind p 0 0); [apply emits_await_mcp; reflexivity|]. intros _.
  apply emits_ret.
Qed.

Lemma emits_getGeminiTools : emits p 0 (getGeminiTools cfg E).
Proof.
  unfold getGeminiTools.
  apply (emits_bind p 0 0); [apply emits_getClient|]. intros _.
  apply (emits_bind p 0 0); [apply emits_await_mcp; reflexivity|]. intros _.
  apply (emits_bind p 0 0); [apply emits_getWorld|]. intros w.
  apply emits_liftThrows.
Qed.

Lemma emits_callMcpTool (name : jsstring) (args : Json) :
  emits p 0 (callMcpTool cfg E name args).
Proof.
  unfold callMcpTool.
  apply (emits_bind p 0 0); [apply emits_getClient|]. intros _.
  apply (emits_bind p 0 0); [apply emits_await_mcp; reflexivity|]. intros _.
  apply (emits_bind p 0 0); [apply emits_getWorld|]. intros w.
  destruct (result_content _); [apply emits_ret | apply emits_throw].
Qed.

Lemma emits_executeTool (call : FunctionCall) :
  emits p 0 (executeTool cfg E call).
Proof.
  unfold executeTool.
  apply (emits_tryCatch p 0 0); [|intros e; apply emits_ret].
  apply (emits_bind p 0 0); [apply emits_callMcpTool|]. intros r.
  apply emits_ret.
Qed.

Lemma emits_executeTools (calls : list FunctionCall) (parts : list Part) :
  emits p 0 (executeTools cfg E calls parts).
Proof.
  revert parts. induction calls as [|call rest IH]; intros parts; simpl.
  - apply emits_ret.
  - apply (emits_bind p 0 0); [apply emits_executeTool|]. intros part.
    apply IH.
Qed.

Lemma emits_sendMessage (msg : ChatMessage) :
  emits p (weight p (GeminiSendMessage msg)) (sendMessage E msg).
Proof.
  unfold sendMessage.
  replace (weight p (GeminiSendMessage msg))
    with (weight p (GeminiSendMessage msg) + (0 + 0))%nat by lia.
  apply emits_bind; [apply emits_await|]. intros _.
  apply emits_bind; [apply emits_getWorld|]. intros w.
  apply emits_ret.
Qed.

Lemma emits_getModel (tools : list FunctionDeclaration) :
  emits p 0 (getModel cfg tools).
Proof.
  unfold getModel.
  destruct (isNil (GEMINI_API_KEY cfg)); [apply emits_throw|].
  apply (emits_bind p 0 0); [apply emits_getWorld|]. intros w.
  destruct (genAI w); [apply emits_ret | apply emits_setGenAI].
Qed.

(** Every pass of the loop sends one batch; [c] bounds what a batch weighs
    under [p]. *)
Variable c : nat.
Hypothesis batch_weight :
  forall parts, (weight p (GeminiSendMessage (MessageParts parts)) <= c)%nat.

Lemma emits_toolLoop (k iteration : nat) (result : GenerateContentResponse) :
  (MAX_ITERATIONS - iteration = k)%nat ->
  emits p (c * k) (toolLoop cfg E iteration result).
Proof.
  revert iteration result.
  induction k as [|k IH]; intros iteration result Hk;
    rewrite toolLoop_step;
    destruct (lt_dec iteration MAX_ITERATIONS) as [Hlt|Hge]; try lia.
  - apply (emits_le p 0); [lia | apply emits_ret].
  - apply (emits_le p (0 + (0 + (c + c * k)))); [lia|].
    apply emits_bind; [apply emits_liftThrows|]. intros requested.
    destruct requested as [[|call calls]|];
      try (apply (emits_le p 0); [lia | apply emits_ret]).
    apply emits_bind; [apply emits_executeTools|]. intros parts.
    apply emits_bind.
    + apply (emits_le p (weight p (GeminiSendMessage (MessageParts parts))));
        [apply batch_weight | apply emits_sendMessage].
    + intros result'. apply IH. lia.
Qed.

Lemma emits_generateAnswer (question : jsstring) :
  emits p (weight p (GeminiSendMessage (MessageText question))
           + c * MAX_ITERATIONS)
    (generateAnswer cfg E question).
Proof.
  unfold generateAnswer.
  destruct (isNil (GEMINI_API_KEY cfg)).
  { apply (emits_le p 0); [lia | apply emits_ret]. }
  apply (emits_le p
    ((0 + (0 + (weight p (GeminiSendMessage (MessageText question))
                + (c * MAX_ITERATIONS + (0 + 0))))) + 0)); [lia|].
  apply emits_tryCatch; [|intros e; apply emits_ret].
  apply emits_bind; [apply emits_getGeminiTools|]. intros tools.
  apply emits_bind; [apply emits_getModel|]. intros _.
  apply emits_bind; [apply emits_sendMessage|]. intros result.
  apply emits_bind; [apply emits_toolLoop; reflexivity|]. intros result'.
  apply emits_bind; [apply emits_liftThrows|]. intros answer.
  apply emits_ret.
Qed.

End AgentEmits.

Lemma total_generateAnswer (cfg : Config) (E : Env) (question : jsstring) :
  total (generateAnswer cfg E question).
Proof.
  unfold generateAnswer.
  destruct (isNil (GEMINI_API_KEY cfg)); [apply total_ret|].
  apply total_tryCatch. intros e. apply total_ret.
Qed.

(** ** The paths of the handler *)

Section Handler.

Variable cfg : Config.
Variable E : Env.
Variable event : SlackEvent.

Lemma reply_then_mark_run (replyText : jsstring) (w : World) :
  (replyToSlack E (channel event) (thread_ts event) replyText ;;
   markEventProcessed E (event_id event) (channel event) (ts event) ;;
   ret (respond 200 "OK")) w =
  match fault E (history w) (replyRequest event replyText) with
  | Some e =>
      (Raise e,
       pushEntry {| request := replyRequest event replyText;
                    succeeded := false |} w)
  | None =>
      (Ok (respond 200 "OK"),
       snd (markEventProcessed E (event_id event) (channel event) (ts event)
              (pushEntry {| request := replyRequest event replyText;
                            succeeded := true |} w)))
  end.
Proof.
  unfold bind at 1. unfold replyToSlack. rewrite await_run.
  fold (replyRequest event replyText).
  destruct (fault E (history w) (replyRequest event replyText));
    [reflexivity|].
  unfold bind. rewrite markEventProcessed_run. reflexivity.
Qed.

Lemma handleEvent_outcome (w : World) :
  exists resp w', handleEvent cfg E event w = (Ok resp, w')
                  /\ Outcome cfg E event w resp w'.
Proof.
  unfold handleEvent. unfold bind at 1.
  destruct (isEventProcessed E (event_id event) w) as [[seen|e] w1] eqn:Hseen.
  2:{ rewrite isEventProcessed_run in Hseen. discriminate. }
  destruct seen.
  { eexists _, _. split; [reflexivity|]. apply OutcomeDuplicate, Hseen. }
  unfold tryCatch. unfold bind at 1.
  destruct (text event) as [t|] eqn:Htext; simpl.
  2:{ eexists _, _. split; [reflexivity|]. apply OutcomeNoText; assumption. }
  destruct (extractQuestion t) as [|u q] eqn:Hq; simpl.
  - rewrite reply_then_mark_run.
    destruct (fault E (history w1) (replyRequest event HELP_MESSAGE)) eqn:Hf.
    + eexists _, _. split; [reflexivity|].
      apply OutcomeRejected with (w1 := w1); [assumption| |].
      * eapply PreparedHelp; eassumption.
      * unfold answers. rewrite Hf. reflexivity.
    + eexists _, _. split; [reflexivity|].
      apply OutcomeDelivered with (w1 := w1); [assumption| |].
      * eapply PreparedHelp; eassumption.
      * unfold answers. rewrite Hf. reflexivity.
  - unfold bind at 1.
    destruct (total_generateAnswer cfg E (u :: q) w1) as (g & w2 & Hg).
    rewrite Hg. rewrite reply_then_mark_run.
    assert (Hprep : Prepared cfg E event w1 w2 (answer g)).
    { eapply PreparedAnswer; [eassumption| |]; rewrite Hq;
        [discriminate | exact Hg]. }
    destruct (fault E (history w2) (replyRequest event (answer g))) eqn:Hf.
    + eexists _, _. split; [reflexivity|].
      apply OutcomeRejected with (w1 := w1); [assumption|assumption|].
      unfold answers. rewrite Hf. reflexivity.
    + eexists _, _. split; [reflexivity|].
      apply OutcomeDelivered with (w1 := w1); [assumption|assumption|].
      unfold answers. rewrite Hf. reflexivity.
Qed.

End Handler.

Lemma count_le_kind (p q : Request -> bool) (h : list Entry) :
  (forall r, p r = true -> q r = true) -> (count p h <= count q h)%nat.
Proof.
  intros Hpq. induction h as [|e h IH]; [reflexivity|].
  rewrite !count_cons. unfold weight.
  destruct (p (request e)) eqn:Hp; [rewrite (Hpq _ Hp); lia|].
  destruct (q (request e)); lia.
Qed.

Lemma markerOnlyAfterReply_free (h : list Entry) :
  count isMarkerWrite h = 0%nat -> markerOnlyAfterReply h.
Proof.
  intros Hc after e before -> He.
  rewrite count_app, count_cons in Hc. unfold weight in Hc.
  rewrite He in Hc. lia.
Qed.

Lemma markerOnlyAfterReply_cons (e : Entry) (h : list Entry) :
  markerOnlyAfterReply h ->
  (exists r, In r h /\ isReply (request r) = true /\ succeeded r = true) ->
  markerOnlyAfterReply (e :: h).
Proof.
  intros Hh Hr after e' before Heq He'.
  destruct after as [|x after]; simpl in Heq; injection Heq as -> ->.
  - exact Hr.
  - eapply Hh; [reflexivity | exact He'].
Qed.

Lemma not_mcp_isHandlerRequest (r : Request) :
  isMcpRequest r = true -> isHandlerRequest r = false.
Proof. destruct r; simpl; intros H; try discriminate H; reflexivity. Qed.

Section HandlerTrace.

Variable cfg : Config.
Variable E : Env.
Variable event : SlackEvent.

Lemma prepared_history (w1 w2 : World) (replyText : jsstring) :
  Prepared cfg E event w1 w2 replyText ->
  exists agentNew,
    history w2 = agentNew ++ history w1
    /\ count isHandlerRequest agentNew = 0%nat
    /\ processed_events w2 = processed_events w1.
Proof.
  intros [t Ht Hq | t g w2' Ht Hq Hg].
  - exists []. auto.
  - assert (Hem := emits_generateAnswer cfg E isHandlerRequest
                     not_mcp_isHandlerRequest
                     0 (fun parts => le_n 0) (extractQuestion t)).
    destruct (Hem w1) as (new & Hh & Hc & Hs). rewrite Hg in *. simpl in *.
    exists new. split; [exact Hh|]. split; [|exact Hs].
    unfold weight in Hc. simpl in Hc. lia.
Qed.

Lemma outcome_trace (w : World) (resp : HttpResponse) (w' : World) :
  Outcome cfg E event w resp w' ->
  exists new, history w' = new ++ history w /\ Trace event w resp w' new.
Proof.
  intros [w1 Hseen | w1 Hseen Htext | w1 w2 replyText Hseen Hprep Hans
          | w1 w2 replyText Hseen Hprep Hans];
    rewrite isEventProcessed_run in Hseen;
    injection Hseen as Hb <-.
  - apply andb_prop in Hb as [Hb1 Hb2]. rewrite Hb1.
    eexists [_]. split; [reflexivity|].
    apply TraceDuplicate; [reflexivity| |reflexivity].
    apply bool_decide_eq_true in Hb2. exact Hb2.
  - eexists [_]. split; [reflexivity|].
    apply TraceNoText; [reflexivity|exact Htext|reflexivity].
  - destruct (prepared_history _ _ _ Hprep) as (agentNew & Hh & Hc & Hs).
    exists ({| request := replyRequest event replyText; succeeded := false |}
            :: agentNew
            ++ [{| request := FirestoreGet (event_id event);
                   succeeded := answers E (history w)
                                  (FirestoreGet (event_id event)) |}]).
    split.
    + simpl. rewrite Hh. simpl. rewrite <- app_assoc. reflexivity.
    + apply TraceRejected; [reflexivity|exact Hc|exact Hs].
  - destruct (prepared_history _ _ _ Hprep) as (agentNew & Hh & Hc & Hs).
    rewrite markEventProcessed_run. simpl in *.
    match goal with
    | |- context [answers E ?h (FirestoreSet ?i ?m)] =>
        remember m as marker eqn:Hm;
        remember (answers E h (FirestoreSet i marker)) as stored eqn:Hst
    end.
    assert (Hch : marker_channel marker = channel event)
      by (rewrite Hm; reflexivity).
    assert (Hts : marker_ts marker = ts event) by (rewrite Hm; reflexivity).
    clear Hm Hst.
    exists ({| request := FirestoreSet (event_id event) marker;
               succeeded := stored |}
            :: {| request := replyRequest event replyText; succeeded := true |}
            :: agentNew
            ++ [{| request := FirestoreGet (event_id event);
                   succeeded := answers E (history w)
                                  (FirestoreGet (event_id event)) |}]).
    split.
    + destruct stored; simpl; rewrite Hh; simpl; rewrite <- app_assoc;
        reflexivity.
    + apply TraceDelivered; [reflexivity|exact Hc|exact Hch|exact Hts|].
      destruct stored; simpl; rewrite Hs; reflexivity.
Qed.

End HandlerTrace.

Section TraceFacts.

Variable event : SlackEvent.
Variables (w : World) (resp : HttpResponse) (w' : World).
Variable new : list Entry.
Hypothesis trace : Trace event w resp w' new.

Lemma agent_entry_not_handler (agentNew : list Entry) (e : Entry) :
  count isHandlerRequest agentNew = 0%nat -> In e agentNew ->
  isLedgerRead (request e) = false /\ isMarkerWrite (request e) = false
  /\ isReply (request e) = false.
Proof.
  intros Hc Hin.
  pose proof (count_zero_not_In _ _ _ Hc Hin) as H.
  unfold isHandlerRequest in H.
  destruct (isLedgerRead (request e)), (isMarkerWrite (request e)),
    (isReply (request e)); try discriminate; auto.
Qed.

Lemma agent_entries_no_marker (agentNew : list Entry) :
  count isHandlerRequest agentNew = 0%nat ->
  count isMarkerWrite agentNew = 0%nat.
Proof.
  intros Hc.
  pose proof (count_le_kind isMarkerWrite isHandlerRequest agentNew) as H.
  rewrite Hc in H. apply Nat.le_0_r, H.
  intros r Hr. unfold isHandlerRequest. rewrite Hr.
  destruct (isLedgerRead r); reflexivity.
Qed.

Lemma trace_marker_after_reply : markerOnlyAfterReply new.
Proof.
  destruct trace as [Hr Hs Hst | ok Hr Ht Hst | ok agentNew replyText Hr Hc Hst
                     | ok stored agentNew replyText marker Hr Hc Hch Hts Hst].
  - apply markerOnlyAfterReply_free. reflexivity.
  - apply markerOnlyAfterReply_free. reflexivity.
  - apply markerOnlyAfterReply_free.
    rewrite count_cons, count_app, (agent_entries_no_marker _ Hc).
    reflexivity.
  - apply markerOnlyAfterReply_cons.
    + apply markerOnlyAfterReply_free.
      rewrite count_cons, count_app, (agent_entries_no_marker _ Hc).
      reflexivity.
    + eexists. split; [left; reflexivity|]. split; reflexivity.
Qed.

Lemma trace_rejected_retry : replyRejected new -> status resp = 500.
Proof.
  intros (r & Hin & Hrep & Hfail).
  destruct trace as [Hr Hs Hst | ok Hr Ht Hst | ok agentNew replyText Hr Hc Hst
                     | ok stored agentNew replyText marker Hr Hc Hch Hts Hst];
    subst resp; try reflexivity; exfalso.
  - destruct Hin as [<-|[]]. discriminate.
  - destruct Hin as [<-|[<-|Hin]]; try discriminate.
    apply in_app_or in Hin as [Hin|[<-|[]]]; [|discriminate].
    destruct (agent_entry_not_handler _ _ Hc Hin) as (_ & _ & H).
    congruence.
Qed.

Lemma trace_retry_no_marker :
  status resp = 500 ->
  count isMarkerWrite new = 0%nat /\ processed_events w' = processed_events w.
Proof.
  intros Hstatus.
  destruct trace as [Hr Hs Hst | ok Hr Ht Hst | ok agentNew replyText Hr Hc Hst
                     | ok stored agentNew replyText marker Hr Hc Hch Hts Hst];
    subst resp; try discriminate.
  - split; [reflexivity | exact Hst].
  - split; [|exact Hst].
    rewrite count_cons, count_app, (agent_entries_no_marker _ Hc).
    reflexivity.
Qed.

Lemma trace_retry_cause :
  status resp = 500 -> text event = None \/ replyRejected new.
Proof.
  intros Hstatus.
  destruct trace as [Hr Hs Hst | ok Hr Ht Hst | ok agentNew replyText Hr Hc Hst
                     | ok stored agentNew replyText marker Hr Hc Hch Hts Hst];
    subst resp; try discriminate.
  - left. exact Ht.
  - right. eexists. split; [left; reflexivity|]. split; reflexivity.
Qed.

Lemma trace_committed (m : Marker) :
  In {| request := FirestoreSet (event_id event) m; succeeded := true |} new ->
  processed_events w' !! event_id event = Some m.
Proof.
  intros Hin.
  destruct trace as [Hr Hs Hst | ok Hr Ht Hst | ok agentNew replyText Hr Hc Hst
                     | ok stored agentNew replyText marker Hr Hc Hch Hts Hst].
  - destruct Hin as [H|[]]. discriminate.
  - destruct Hin as [H|[]]. discriminate.
  - destruct Hin as [H|Hin]; [discriminate|].
    apply in_app_or in Hin as [Hin|[H|[]]]; [|discriminate].
    destruct (agent_entry_not_handler _ _ Hc Hin) as (_ & H & _).
    discriminate.
  - destruct Hin as [H|[H|Hin]]; try discriminate.
    + injection H as -> ->. rewrite Hst. apply lookup_insert_eq.
    + apply in_app_or in Hin as [Hin|[H|[]]]; [|discriminate].
      destruct (agent_entry_not_handler _ _ Hc Hin) as (_ & H & _).
      discriminate.
Qed.

End TraceFacts.

(** ** The delivery handler and the ledger *)

(** The endpoint answers 400 to a body without data or with data that do
    not decode, and touches nothing; it throws on a payload that parses to
    [null], and touches nothing; otherwise it is [handleEvent] on the
    decoded event. *)
Lemma pubsubPush_cases (cfg : Config) (E : Env) (reqBody : PubSubMessage)
    (w : World) :
  (~ parsesToNull E reqBody
   /\ exists resp,
       pubsubPush cfg E reqBody w = (Ok resp, w) /\ status resp = 400)
  \/ (parsesToNull E reqBody
      /\ exists e, pubsubPush cfg E reqBody w = (Raise e, w))
  \/ (~ parsesToNull E reqBody
      /\ exists event, pubsubPush cfg E reqBody w = handleEvent cfg E event w).
Proof.
  unfold pubsubPush, parsesToNull.
  destruct (message_ reqBody) as [envelope|] eqn:Hmessage.
  2:{ left. split; [|eexists; split; reflexivity].
      intros (envelope & encoded & H & _). discriminate H. }
  destruct (data envelope) as [[|u encoded]|] eqn:Hdata.
  - left. split; [|eexists; split; reflexivity].
    intros (envelope' & encoded & H & Hd & Hne & _).
    injection H as <-. rewrite Hdata in Hd. injection Hd as <-.
    apply Hne. reflexivity.
  - destruct (decodeEvent E (u :: encoded)) as [[|event]|e] eqn:Hdecode.
    + right. left. split; [|eexists; reflexivity].
      exists envelope, (u :: encoded).
      split; [reflexivity|]. split; [exact Hdata|].
      split; [discriminate | exact Hdecode].
    + right. right. split; [|exists event; reflexivity].
      intros (envelope' & encoded' & H & Hd & _ & Hnull).
      injection H as <-. rewrite Hdata in Hd. injection Hd as <-.
      rewrite Hdecode in Hnull. discriminate Hnull.
    + left. split; [|eexists; split; reflexivity].
      intros (envelope' & encoded' & H & Hd & _ & Hnull).
      injection H as <-. rewrite Hdata in Hd. injection Hd as <-.
      rewrite Hdecode in Hnull. discriminate Hnull.
  - left. split; [|eexists; split; reflexivity].
    intros (envelope' & encoded & H & Hd & _).
    injection H as <-. rewrite Hdata in Hd. discriminate Hd.
Qed.

(** C1.  When the ledger reports the event as processed, the handler
    answers 200 "Already processed" and the ledger read is the only request
    of the delivery: no reply, no model call, no tool call, no marker
    write, and the store is as it was.  Hence, once a delivery has
    committed its marker, a redelivery of the event on which the ledger can
    be read sends no reply. *)
Theorem duplicate_delivery_has_no_effect (cfg : Config) (E : Env)
    (event : SlackEvent) :
  (forall w w1,
      isEventProcessed E (event_id event) w = (Ok true, w1) ->
      handleEvent cfg E event w = (Ok (respond 200 "Already processed"), w1)
      /\ w1 = pushEntry {| request := FirestoreGet (event_id event);
                           succeeded := true |} w)
  /\ (forall w0 resp w1 new marker,
        handleEvent cfg E event w0 = (Ok resp, w1) ->
        history w1 = new ++ history w0 ->
        In {| request := FirestoreSet (event_id event) marker;
              succeeded := true |} new ->
        answers E (history w1) (FirestoreGet (event_id event)) = true ->
        exists w2 new2,
          handleEvent cfg E event w1
          = (Ok (respond 200 "Already processed"), w2)
          /\ history w2 = new2 ++ history w1
          /\ count isReply new2 = 0%nat
          /\ count isModelCall new2 = 0%nat
          /\ count isMcpRequest new2 = 0%nat
          /\ count isMarkerWrite new2 = 0%nat).
Proof.
  assert (Hdup : forall w w1,
      isEventProcessed E (event_id event) w = (Ok true, w1) ->
      handleEvent cfg E event w = (Ok (respond 200 "Already processed"), w1)
      /\ w1 = pushEntry {| request := FirestoreGet (event_id event);
                           succeeded := true |} w).
  { intros w w1 Hseen. split.
    - unfold handleEvent, bind. rewrite Hseen. reflexivity.
    - rewrite isEventProcessed_run in Hseen. injection Hseen as Hb <-.
      apply andb_prop in Hb as [-> _]. reflexivity. }
  split; [exact Hdup|].
  intros w0 resp w1 new marker Hrun Hhist Hin Hread.
  destruct (handleEvent_outcome cfg E event w0) as (resp' & w1' & Hrun' & Hout).
  rewrite Hrun in Hrun'. injection Hrun' as <- <-.
  destruct (outcome_trace cfg E event _ _ _ Hout) as (new' & Hhist' & Htrace).
  rewrite Hhist in Hhist'. apply app_inv_tail in Hhist'. subst new'.
  pose proof (trace_committed event _ _ _ _ Htrace marker Hin) as Hstored.
  assert (Hseen : isEventProcessed E (event_id event) w1
                  = (Ok true, pushEntry {| request := FirestoreGet
                                                        (event_id event);
                                           succeeded := true |} w1)).
  { rewrite isEventProcessed_run, Hread, Hstored. reflexivity. }
  destruct (Hdup _ _ Hseen) as [Hresp _].
  eexists _, [_]. split; [exact Hresp|].
  split; [reflexivity|]. repeat split.
Qed.

(** C5.  In every delivery the marker write comes only after a reply the
    sink accepted.  The steps that can raise are the reading of the text
    and the reply: a rejected reply ends the delivery with 500, a missing
    text on an event the ledger does not report as processed ends it with
    500, nothing else does; and a delivery that ends with 500 has written
    no marker. *)
Theorem marker_written_only_after_reply (cfg : Config) (E : Env)
    (event : SlackEvent) (w : World) :
  exists resp w' new,
    handleEvent cfg E event w = (Ok resp, w')
    /\ history w' = new ++ history w
    /\ markerOnlyAfterReply new
    /\ (replyRejected new -> status resp = 500)
    /\ (text event = None ->
        resp = respond 200 "Already processed" \/ status resp = 500)
    /\ (fst (isEventProcessed E (event_id event) w) = Ok false ->
        text event = None ->
        resp = respond 500 "Processing failed")
    /\ (status resp = 500 ->
        fst (isEventProcessed E (event_id event) w) = Ok false
        /\ (text event = None \/ replyRejected new))
    /\ (status resp = 500 ->
        count isMarkerWrite new = 0%nat
        /\ processed_events w' = processed_events w).
Proof.
  destruct (handleEvent_outcome cfg E event w) as (resp & w' & Hrun & Hout).
  destruct (outcome_trace cfg E event _ _ _ Hout) as (new & Hhist & Htrace).
  exists resp, w', new.
  split; [exact Hrun|]. split; [exact Hhist|].
  split; [exact (trace_marker_after_reply event _ _ _ _ Htrace)|].
  split; [exact (trace_rejected_retry event _ _ _ _ Htrace)|].
  split; [|split; [|split;
    [|exact (trace_retry_no_marker event _ _ _ _ Htrace)]]].
  - intros Htext.
    destruct Hout as [w1 Hseen | w1 Hseen _ | w1 w2 replyText Hseen Hprep _
                      | w1 w2 replyText Hseen Hprep _];
      [left; reflexivity | right; reflexivity | |];
      destruct Hprep; congruence.
  - intros Hunseen Htext.
    destruct Hout as [w1 Hseen | w1 Hseen _ | w1 w2 replyText Hseen Hprep _
                      | w1 w2 replyText Hseen Hprep _].
    + rewrite Hseen in Hunseen. discriminate Hunseen.
    + reflexivity.
    + reflexivity.
    + destruct Hprep; congruence.
  - intros Hstatus. split.
    + destruct Hout as [w1 Hseen | w1 Hseen _ | w1 w2 replyText Hseen Hprep _
                        | w1 w2 replyText Hseen Hprep _];
        try (rewrite Hseen; reflexivity).
      discriminate Hstatus.
    + exact (trace_retry_cause event _ _ _ _ Htrace Hstatus).
Qed.

(** C6.  [isEventProcessed] never throws and answers [false] when the read
    fails; [markEventProcessed] never throws; and a delivery ends with 500
    only for a missing text or a rejected reply, never for the ledger. *)
Theorem ledger_failures_are_contained (cfg : Config) (E : Env)
    (event : SlackEvent) (eventId channel ts : jsstring) (w : World) :
  (exists seen w1,
      isEventProcessed E eventId w = (Ok seen, w1)
      /\ (answers E (history w) (FirestoreGet eventId) = false ->
          seen = false))
  /\ (exists w1, markEventProcessed E eventId channel ts w = (Ok tt, w1))
  /\ (exists resp w' new,
        handleEvent cfg E event w = (Ok resp, w')
        /\ history w' = new ++ history w
        /\ (status resp = 500 -> text event = None \/ replyRejected new)).
Proof.
  split; [|split].
  - rewrite isEventProcessed_run. eexists _, _. split; [reflexivity|].
    intros ->. reflexivity.
  - rewrite markEventProcessed_run. eexists. reflexivity.
  - destruct (handleEvent_outcome cfg E event w) as (resp & w' & Hrun & Hout).
    destruct (outcome_trace cfg E event _ _ _ Hout) as (new & Hhist & Htrace).
    exists resp, w', new. split; [exact Hrun|]. split; [exact Hhist|].
    exact (trace_retry_cause event _ _ _ _ Htrace).
Qed.

(** ** The answer agent *)

Lemma not_mcp_isModelCall (r : Request) :
  isMcpRequest r = true -> isModelCall r = false.
Proof. destruct r; simpl; congruence. Qed.

Lemma not_mcp_isToolBatch (r : Request) :
  isMcpRequest r = true -> isToolBatch r = false.
Proof. destruct r; simpl; congruence. Qed.

Lemma weight_le_1 (p : Request -> bool) (r : Request) :
  (weight p r <= 1)%nat.
Proof. unfold weight. destruct (p r); lia. Qed.

(** C3.  Whatever the model and the tools answer, [generateAnswer]
    returns a result (it does not throw), having sent at most
    [MAX_ITERATIONS] = 10 batches of tool results back to the model and at
    most 11 messages to the model in all. *)
Theorem generateAnswer_terminates_within_bound (cfg : Config) (E : Env)
    (question : jsstring) (w : World) :
  exists result w' new,
    generateAnswer cfg E question w = (Ok result, w')
    /\ history w' = new ++ history w
    /\ (count isToolBatch new <= MAX_ITERATIONS)%nat
    /\ (count isModelCall new <= S MAX_ITERATIONS)%nat
    /\ MAX_ITERATIONS = 10%nat.
Proof.
  destruct (total_generateAnswer cfg E question w) as (result & w' & Hrun).
  destruct (emits_generateAnswer cfg E isToolBatch not_mcp_isToolBatch 1
              (fun parts => weight_le_1 _ _) question w)
    as (new & Hhist & Hbatches & _).
  destruct (emits_generateAnswer cfg E isModelCall not_mcp_isModelCall 1
              (fun parts => weight_le_1 _ _) question w)
    as (new' & Hhist' & Hcalls & _).
  rewrite Hrun in *. simpl in *.
  rewrite Hhist in Hhist'. apply app_inv_tail in Hhist'. subst new'.
  exists result, w', new.
  split; [reflexivity|]. split; [exact Hhist|].
  split; [exact Hbatches|]. split; [exact Hcalls | reflexivity].
Qed.

(** C10.  Without an API key both variants of [generateAnswer] return the
    fixed configuration-error answer with [success = false] and leave the
    world as it was: nothing is sent to the model or to the MCP server. *)
Theorem generateAnswer_without_api_key (cfg : Config) (E : Env)
    (question passages : jsstring) (w : World) :
  GEMINI_API_KEY cfg = [] ->
  generateAnswer cfg E question w
  = (Ok {| answer := CONFIG_ERROR; success := false |}, w)
  /\ generateAnswer_passages cfg E question passages w
     = (Ok {| answer := CONFIG_ERROR; success := false |}, w)
  /\ CONFIG_ERROR <> [].
Proof.
  intros Hkey. unfold generateAnswer, generateAnswer_passages.
  rewrite Hkey. simpl. repeat split. discriminate.
Qed.

Lemma generateAnswer_without_api_key_witness :
  generateAnswer Sample.cfg_no_key Sample.alwaysTools (js "OpenRTB")
    Sample.start
  = (Ok {| answer := CONFIG_ERROR; success := false |}, Sample.start)
  /\ generateAnswer_passages Sample.cfg_no_key Sample.alwaysTools
       (js "OpenRTB") (js "passage") Sample.start
     = (Ok {| answer := CONFIG_ERROR; success := false |}, Sample.start)
  /\ CONFIG_ERROR <> [].
Proof.
  apply (generateAnswer_without_api_key Sample.cfg_no_key Sample.alwaysTools).
  reflexivity.
Defined.

(** *** A batch of tool calls *)

Lemma executeTools_cached (cfg : Config) (E : Env) (c : McpClient)
    (calls : list FunctionCall) :
  forall (parts : list Part) (w : World),
    client w = Some c ->
    exists results new w',
      executeTools cfg E calls parts w = (Ok (parts ++ results), w')
      /\ history w' = new ++ history w
      /\ client w' = Some c
      /\ List.map request (List.rev new) = List.map toolRequest calls
      /\ List.map part_name results = List.map call_name calls
      /\ Forall2 failureReported (List.rev new) results.
Proof.
  induction calls as [|call rest IH]; intros parts w Hc.
  - exists [], [], w. simpl. rewrite app_nil_r. repeat split; auto.
  - simpl. unfold bind. rewrite (executeTool_cached cfg E c call w Hc).
    set (e := {| request := toolRequest call;
                 succeeded := answers E (history w) (toolRequest call) |}).
    destruct (IH (parts ++ [partOf E (history w) call]) (pushEntry e w) Hc)
      as (results & new & w' & Hrun & Hhist & Hc' & Hreq & Hnames & Hfail).
    exists (partOf E (history w) call :: results), (new ++ [e]), w'.
    rewrite Hrun, <- !app_assoc, List.rev_app_distr. simpl.
    rewrite Hreq, Hnames.
    repeat split; auto.
    constructor; [|exact Hfail].
    unfold failureReported, e, partOf, answers. simpl.
    destruct (fault E (history w) (toolRequest call)); [eauto|discriminate].
Qed.

(** [generateAnswer] enters its loop after [getGeminiTools] has returned,
    and then the client is set. *)
Lemma getGeminiTools_sets_client (cfg : Config) (E : Env) (w w0 : World)
    (tools : list FunctionDeclaration) :
  getGeminiTools cfg E w = (Ok tools, w0) -> exists c, client w0 = Some c.
Proof.
  unfold getGeminiTools. unfold bind at 1.
  destruct (client w) as [c|] eqn:Hc.
  - rewrite (getClient_cached cfg E c w Hc). unfold bind. rewrite await_run.
    destruct (fault E (history w) McpListTools); [discriminate|].
    unfold getWorld.
    destruct (mapThrows toolDeclaration _); [|discriminate].
    intros [= _ <-]. exists c. exact Hc.
  - unfold getClient, bind at 1, getWorld. rewrite Hc.
    destruct (isURL E (MCP_URL cfg)); [|discriminate].
    unfold bind, setClient. rewrite await_run. simpl.
    destruct (fault E (history w) (McpConnect (MCP_URL cfg)));
      [discriminate|].
    unfold ret. rewrite await_run. simpl.
    destruct (fault E _ McpListTools); [discriminate|].
    destruct (mapThrows toolDeclaration _); [|discriminate].
    intros [= _ <-]. eexists. reflexivity.
Qed.

(** C4, as the code has it.  Take a model turn that requests the calls
    [call :: calls].  If the loop handles it (fewer than [MAX_ITERATIONS]
    batches sent so far), the adapter sends one request per call, in
    order, and nothing else; the parts it yields are one per call, under
    the call's name, an error part wherever the request failed; and the
    loop's next step is to send all of them to the model in one message.
    If the bound is reached, the loop ends with this turn as its result
    and none of its calls is run. *)
Theorem batch_is_answered_whole (cfg : Config) (E : Env) (iteration : nat)
    (result : GenerateContentResponse) (call : FunctionCall)
    (calls : list FunctionCall) (w : World) (c : McpClient) :
  functionCalls result = Ok (Some (call :: calls)) ->
  client w = Some c ->
  if (iteration <? MAX_ITERATIONS)%nat
  then
    exists parts new w1,
      executeTools cfg E (call :: calls) [] w = (Ok parts, w1)
      /\ history w1 = new ++ history w
      /\ List.map request (List.rev new)
         = List.map toolRequest (call :: calls)
      /\ length parts = length (call :: calls)
      /\ List.map part_name parts = List.map call_name (call :: calls)
      /\ Forall2 failureReported (List.rev new) parts
      /\ toolLoop cfg E iteration result w
         = bind (sendMessage E (MessageParts parts))
                (toolLoop cfg E (S iteration)) w1
  else toolLoop cfg E iteration result w = (Ok result, w).
Proof.
  intros Hcalls Hc.
  destruct (iteration <? MAX_ITERATIONS)%nat eqn:Hlt.
  - apply Nat.ltb_lt in Hlt.
    destruct (executeTools_cached cfg E c (call :: calls) [] w Hc)
      as (parts & new & w1 & Hrun & Hhist & _ & Hreq & Hnames & Hfail).
    simpl app in Hrun.
    exists parts, new, w1.
    split; [exact Hrun|]. split; [exact Hhist|]. split; [exact Hreq|].
    split; [|split; [exact Hnames|split; [exact Hfail|]]].
    + rewrite <- (List.length_map part_name), Hnames, List.length_map.
      reflexivity.
    + rewrite toolLoop_step.
      destruct (lt_dec iteration MAX_ITERATIONS) as [_|Hge]; [|contradiction].
      unfold bind at 1. rewrite Hcalls. simpl liftThrows. unfold ret at 1.
      unfold bind at 1. rewrite Hrun. reflexivity.
  - apply Nat.ltb_ge in Hlt. rewrite toolLoop_step.
    destruct (lt_dec iteration MAX_ITERATIONS) as [Hlt'|_]; [lia|].
    reflexivity.
Qed.

Lemma batch_is_answered_whole_witness :
  exists parts new w1,
    executeTools Sample.cfg Sample.flaky
      [Sample.searchCall; Sample.searchCall] [] Sample.connected
    = (Ok parts, w1)
    /\ history w1 = new ++ history Sample.connected
    /\ List.map request (List.rev new)
       = List.map toolRequest [Sample.searchCall; Sample.searchCall]
    /\ length parts = 2%nat
    /\ List.map part_name parts
       = List.map call_name [Sample.searchCall; Sample.searchCall]
    /\ Forall2 failureReported (List.rev new) parts
    /\ toolLoop Sample.cfg Sample.flaky 0
         {| functionCalls :=
              Ok (Some [Sample.searchCall; Sample.searchCall]);
            response_text := Ok [] |} Sample.connected
       = bind (sendMessage Sample.flaky (MessageParts parts))
              (toolLoop Sample.cfg Sample.flaky 1) w1.
Proof.
  apply (batch_is_answered_whole Sample.cfg Sample.flaky 0
           {| functionCalls :=
                Ok (Some [Sample.searchCall; Sample.searchCall]);
              response_text := Ok [] |}
           Sample.searchCall [Sample.searchCall] Sample.connected
           {| client_name := js "iab-docs-bot"; client_version := js "1.0.0" |}).
  - reflexivity.
  - reflexivity.
Defined.

(** C4, as the claim has it, fails on the turn that reaches the bound.
    The model of [Sample.alwaysTools] requests one call on each of its
    turns; the agent hears 11 turns and runs 10 calls: the calls of the
    last turn are dropped. *)
Lemma last_turn_calls_are_dropped :
  let w' := snd (generateAnswer Sample.cfg Sample.alwaysTools (js "OpenRTB")
                   Sample.start) in
  (forall h, functionCalls (sendMessageResult Sample.alwaysTools h)
             = Ok (Some [Sample.searchCall]))
  /\ count isModelCall (history w') = 11%nat
  /\ count isToolCall (history w') = 10%nat.
Proof.
  split; [reflexivity|]. vm_compute. split; reflexivity.
Qed.

(** C9, as the code has it.  A tool request that fails is not sent again:
    the failed request is the call's only one, its error message becomes
    the call's part, and the loop goes on with the rest of the batch. *)
Theorem failed_tool_call_is_not_retried (cfg : Config) (E : Env)
    (call : FunctionCall) (rest : list FunctionCall) (parts : list Part)
    (w : World) (c : McpClient) (err : JsError) :
  client w = Some c ->
  fault E (history w) (toolRequest call) = Some err ->
  executeTools cfg E (call :: rest) parts w
  = executeTools cfg E rest
      (parts ++ [{| part_name := call_name call;
                    part_response := ResponseError (message err) |}])
      (pushEntry {| request := toolRequest call; succeeded := false |} w).
Proof.
  intros Hc Hfault. simpl. unfold bind.
  rewrite (executeTool_cached cfg E c call w Hc).
  unfold partOf, answers. rewrite Hfault. reflexivity.
Qed.

Lemma failed_tool_call_is_not_retried_witness :
  executeTools Sample.cfg Sample.flaky
    [Sample.searchCall; Sample.searchCall] [] Sample.connected
  = executeTools Sample.cfg Sample.flaky [Sample.searchCall]
      ([] ++ [{| part_name := call_name Sample.searchCall;
                 part_response := ResponseError (js "fetch failed") |}])
      (pushEntry {| request := toolRequest Sample.searchCall;
                    succeeded := false |} Sample.connected).
Proof.
  apply (failed_tool_call_is_not_retried Sample.cfg Sample.flaky
           Sample.searchCall [Sample.searchCall] [] Sample.connected
           {| client_name := js "iab-docs-bot"; client_version := js "1.0.0" |}
           {| message := js "fetch failed" |}).
  - reflexivity.
  - reflexivity.
Defined.

(** C9, as the claim has it, fails.  The first tool request of
    [Sample.flaky] fails and any later one would be answered; the batch of
    one call is answered by an error part after a single request. *)
Lemma transport_failure_is_reported_at_once :
  let run := executeTools Sample.cfg Sample.flaky [Sample.searchCall] []
               Sample.connected in
  fst run = Ok [{| part_name := js "search";
                   part_response := ResponseError (js "fetch failed") |}]
  /\ count isToolCall (history (snd run)) = 1%nat
  /\ fault Sample.flaky (history (snd run)) (toolRequest Sample.searchCall)
     = None.
Proof. vm_compute. repeat split. Qed.

(** *** The conversion of schemas *)

Lemma mapSchemaType_throws (type : option Json) :
  hasNoLowerCase type = true -> mapSchemaType type = Raise TYPE_ERROR.
Proof. destruct type as [[]|]; simpl; try discriminate; reflexivity. Qed.

Lemma mapSchemaType_returns (type : option Json) :
  hasNoLowerCase type = false -> exists t, mapSchemaType type = Ok t.
Proof.
  destruct type as [[| | |name| |]|]; simpl; try discriminate; intros _;
    try (eexists; reflexivity).
  repeat match goal with
         | |- context [decide (?a = ?b)] =>
             destruct (decide (a = b)); [eexists; reflexivity|]
         end.
  eexists. reflexivity.
Qed.

(** Induction on a schema, through its properties and its items. *)
Lemma JsonSchema_nested_ind (P : JsonSchema -> Prop) :
  (forall type description nullable properties required items enum,
      match properties with
      | Some entries => Forall (fun entry => P (snd entry)) entries
      | None => True
      end ->
      match items with
      | Some i => P i
      | None => True
      end ->
      P (MkJsonSchema type description nullable properties required items
           enum)) ->
  forall schema, P schema.
Proof.
  intros step. fix IH 1.
  intros [type description nullable properties required items enum].
  apply step.
  - destruct properties as [entries|]; [|exact I].
    induction entries as [|entry entries IHentries]; constructor.
    + apply IH.
    + exact IHentries.
  - destruct items as [i|]; [apply IH | exact I].
Qed.

Lemma convertProperties_spec (entries : list (jsstring * JsonSchema)) :
  Forall (fun entry => converted_as_declared (snd entry)) entries ->
  if existsb hasNoLowerCase
       (List.flat_map (fun entry => declaredTypes (snd entry)) entries)
  then convertProperties convertSchemaNode entries = Raise TYPE_ERROR
  else exists result,
         convertProperties convertSchemaNode entries = Ok result
         /\ List.flat_map
              (fun entry => fst entry :: geminiPropertyNames (snd entry))
              result
            = List.flat_map
                (fun entry => fst entry :: propertyNames (snd entry))
                (ownEntries ownPart entries)
         /\ List.map Ok
              (List.flat_map (fun entry => nodeTypes (snd entry)) result)
            = List.map mapSchemaType
                (List.flat_map (fun entry => declaredTypes (snd entry))
                   (ownEntries ownPart entries)).
Proof.
  induction 1 as [|[key prop] entries Hprop _ IH].
  - exists []. repeat split.
  - cbn [List.flat_map snd]. rewrite existsb_app.
    unfold converted_as_declared in Hprop. cbn [snd] in Hprop.
    cbn [convertProperties].
    destruct (existsb hasNoLowerCase (declaredTypes prop)).
    { rewrite Hprop. reflexivity. }
    destruct Hprop as (converted & -> & Hnames & Htypes).
    cbn [orb bindThrows].
    destruct (existsb hasNoLowerCase _).
    { fold (convertProperties convertSchemaNode entries). rewrite IH.
      reflexivity. }
    destruct IH as (result & Hresult & Hn & Ht).
    fold (convertProperties convertSchemaNode entries). rewrite Hresult.
    cbn [bindThrows]. eexists. split; [reflexivity|].
    unfold ownEntries. cbn [List.flat_map fst snd].
    fold (ownEntries ownPart entries).
    destruct (bool_decide (key = PROTO)); cbn [app].
    + split; [exact Hn | exact Ht].
    + cbn [List.flat_map fst snd app].
      rewrite Hnames, Hn. split; [reflexivity|].
      rewrite !List.map_app, Htypes, Ht. reflexivity.
Qed.

Lemma convertSchemaNode_spec (schema : JsonSchema) :
  converted_as_declared schema.
Proof.
  induction schema
    as [type description nullable properties required items enum IHps IHi]
    using JsonSchema_nested_ind.
  unfold converted_as_declared.
  cbn [declaredTypes existsb convertSchemaNode].
  destruct (hasNoLowerCase type) eqn:Htype.
  { rewrite (mapSchemaType_throws _ Htype). reflexivity. }
  destruct (mapSchemaType_returns _ Htype) as (t & Ht). rewrite Ht.
  cbn [orb bindThrows]. rewrite existsb_app.
  assert (Hps :
    if existsb hasNoLowerCase
         match properties with
         | Some ps => List.flat_map (fun entry => declaredTypes (snd entry)) ps
         | None => []
         end
    then match properties with
         | Some entries =>
             bindThrows (convertProperties convertSchemaNode entries)
               (fun result => Ok (Some result))
         | None => Ok None
         end = Raise TYPE_ERROR
    else exists result,
           match properties with
           | Some entries =>
               bindThrows (convertProperties convertSchemaNode entries)
                 (fun result => Ok (Some result))
           | None => Ok None
           end = Ok result
           /\ match result with
              | Some ps =>
                  List.flat_map
                    (fun entry => fst entry :: geminiPropertyNames (snd entry))
                    ps
              | None => []
              end
              = match option_map (ownEntries ownPart) properties with
                | Some ps =>
                    List.flat_map
                      (fun entry => fst entry :: propertyNames (snd entry)) ps
                | None => []
                end
           /\ List.map Ok
                match result with
                | Some ps =>
                    List.flat_map (fun entry => nodeTypes (snd entry)) ps
                | None => []
                end
              = List.map mapSchemaType
                  match option_map (ownEntries ownPart) properties with
                  | Some ps =>
                      List.flat_map (fun entry => declaredTypes (snd entry))
                        ps
                  | None => []
                  end).
  { destruct properties as [entries|]; [|exists None; repeat split].
    pose proof (convertProperties_spec entries IHps) as H.
    destruct (existsb hasNoLowerCase _).
    - rewrite H. reflexivity.
    - destruct H as (result & -> & Hn & Ht'). exists (Some result).
      repeat split; assumption. }
  destruct (existsb hasNoLowerCase
              match properties with
              | Some ps =>
                  List.flat_map (fun entry => declaredTypes (snd entry)) ps
              | None => []
              end).
  { rewrite Hps. reflexivity. }
  destruct Hps as (properties' & -> & Hnames & Htypes).
  cbn [orb bindThrows].
  destruct items as [i|].
  - pose proof IHi as Hi. unfold converted_as_declared in Hi.
    destruct (existsb hasNoLowerCase (declaredTypes i)).
    { rewrite Hi. reflexivity. }
    destruct Hi as (items' & -> & Hin & Hit).
    cbn [bindThrows]. eexists. split; [reflexivity|].
    cbn [ownPart geminiPropertyNames propertyNames nodeTypes declaredTypes
         option_map].
    fold (ownEntries ownPart).
    rewrite Hnames, Hin. split; [reflexivity|].
    cbn [List.map]. rewrite !List.map_app, Htypes, Hit, Ht. reflexivity.
  - cbn [bindThrows]. eexists. split; [reflexivity|].
    cbn [ownPart geminiPropertyNames propertyNames nodeTypes declaredTypes
         option_map].
    fold (ownEntries ownPart).
    rewrite Hnames. split; [reflexivity|].
    cbn [List.map]. rewrite !List.map_app, Htypes, Ht. reflexivity.
Qed.

(** The declarations of a catalog: the mapping throws when a tool's
    schema declares a type without [toLowerCase], and otherwise declares
    every tool, in order. *)
Lemma toolDeclaration_cases (tool : McpTool) :
  if conversionThrows tool
  then toolDeclaration tool = Raise TYPE_ERROR
  else exists parameters,
         toolDeclaration tool
         = Ok {| fd_name := tool_name tool;
                 fd_description := default [] (tool_description tool);
                 fd_parameters := parameters |}.
Proof.
  unfold conversionThrows, toolDeclaration, convertSchema.
  destruct (tool_inputSchema tool) as [schema|];
    [|eexists; reflexivity].
  pose proof (convertSchemaNode_spec schema) as H.
  unfold converted_as_declared in H.
  destruct (existsb hasNoLowerCase (declaredTypes schema)).
  - rewrite H. reflexivity.
  - destruct H as (converted & -> & _). eexists. reflexivity.
Qed.

Lemma declarations_follow_tools (tools : list McpTool)
    (declarations : list FunctionDeclaration) :
  mapThrows toolDeclaration tools = Ok declarations ->
  List.map fd_name declarations = List.map tool_name tools
  /\ length declarations = length tools
  /\ Forall2 (fun t d => fd_description d = default [] (tool_description t))
       tools declarations.
Proof.
  revert declarations.
  induction tools as [|tool tools IH]; intros declarations; cbn [mapThrows].
  - intros [= <-]. repeat split. constructor.
  - pose proof (toolDeclaration_cases tool) as Htool.
    destruct (conversionThrows tool);
      [rewrite Htool; discriminate|].
    destruct Htool as (parameters & ->). cbn [bindThrows].
    destruct (mapThrows toolDeclaration tools) as [rest|];
      [|discriminate].
    cbn [bindThrows]. intros [= <-].
    destruct (IH rest eq_refl) as (Hnames & Hlength & Hdescriptions).
    cbn [List.map length fd_name]. rewrite Hnames, Hlength.
    repeat split. constructor; [reflexivity | exact Hdescriptions].
Qed.

Lemma mapThrows_toolDeclaration (tools : list McpTool) :
  if existsb conversionThrows tools
  then mapThrows toolDeclaration tools = Raise TYPE_ERROR
  else exists declarations,
         mapThrows toolDeclaration tools = Ok declarations
         /\ List.map fd_name declarations = List.map tool_name tools.
Proof.
  induction tools as [|tool tools IH]; cbn [mapThrows existsb].
  - exists []. split; reflexivity.
  - pose proof (toolDeclaration_cases tool) as Htool.
    destruct (conversionThrows tool); [rewrite Htool; reflexivity|].
    destruct Htool as (parameters & ->). cbn [orb bindThrows].
    destruct (existsb conversionThrows tools).
    + rewrite IH. reflexivity.
    + destruct IH as (rest & -> & Hnames). cbn [bindThrows].
      eexists. split; [reflexivity|].
      cbn [List.map fd_name]. rewrite Hnames. reflexivity.
Qed.

(** *** The tool catalog *)

(** C8, as the code has it.  What is cached is the client: once the
    module variable holds one, [getGeminiTools] does not connect again, but
    it asks the server for the catalog on every call.  When the listing
    fails the call throws what the listing threw; when the listing is
    answered the call converts what that listing gave: it throws a
    [TypeError] when a schema of the catalog declares a type without
    [toLowerCase], and returns one declaration per tool otherwise. *)
Theorem client_is_cached_catalog_is_fetched (cfg : Config) (E : Env)
    (w : World) (c : McpClient) :
  client w = Some c ->
  getGeminiTools cfg E w
  = match fault E (history w) McpListTools with
    | Some e =>
        (Raise e, pushEntry {| request := McpListTools; succeeded := false |} w)
    | None =>
        (mapThrows toolDeclaration
           (listToolsResult E
              ({| request := McpListTools; succeeded := true |}
               :: history w)),
         pushEntry {| request := McpListTools; succeeded := true |} w)
    end
  /\ (fault E (history w) McpListTools = None ->
      if existsb conversionThrows
           (listToolsResult E
              ({| request := McpListTools; succeeded := true |}
               :: history w))
      then fst (getGeminiTools cfg E w) = Raise TYPE_ERROR
      else exists declarations,
             fst (getGeminiTools cfg E w) = Ok declarations
             /\ List.map fd_name declarations
                = List.map tool_name
                    (listToolsResult E
                       ({| request := McpListTools; succeeded := true |}
                        :: history w)))
  /\ client (snd (getGeminiTools cfg E w)) = Some c.
Proof.
  intros Hc.
  assert (Hrun : getGeminiTools cfg E w
    = match fault E (history w) McpListTools with
      | Some e =>
          (Raise e,
           pushEntry {| request := McpListTools; succeeded := false |} w)
      | None =>
          (mapThrows toolDeclaration
             (listToolsResult E
                ({| request := McpListTools; succeeded := true |}
                 :: history w)),
           pushEntry {| request := McpListTools; succeeded := true |} w)
      end).
  { unfold getGeminiTools, bind.
    rewrite (getClient_cached cfg E c w Hc), await_run.
    destruct (fault E (history w) McpListTools); [reflexivity|].
    unfold getWorld. cbn [history pushEntry].
    destruct (mapThrows toolDeclaration _); reflexivity. }
  split; [exact Hrun|]. rewrite Hrun. split.
  - intros ->. cbn [fst]. apply mapThrows_toolDeclaration.
  - destruct (fault E (history w) McpListTools); exact Hc.
Qed.

Lemma client_is_cached_catalog_is_fetched_witness :
  getGeminiTools Sample.cfg Sample.growingCatalog Sample.connected
  = (Ok [Sample.searchDeclaration],
     pushEntry {| request := McpListTools; succeeded := true |}
               Sample.connected)
  /\ (exists declarations,
        fst (getGeminiTools Sample.cfg Sample.growingCatalog
               Sample.connected) = Ok declarations
        /\ List.map fd_name declarations = [js "search"])
  /\ client (snd (getGeminiTools Sample.cfg Sample.growingCatalog
                    Sample.connected))
     = Some {| client_name := js "iab-docs-bot";
               client_version := js "1.0.0" |}.
Proof.
  destruct (client_is_cached_catalog_is_fetched Sample.cfg
              Sample.growingCatalog Sample.connected
              {| client_name := js "iab-docs-bot";
                 client_version := js "1.0.0" |} eq_refl)
    as (Hrun & Hlisted & Hclient).
  split; [exact Hrun|]. split; [exact (Hlisted eq_refl) | exact Hclient].
Defined.

(** The conversion can fail after a listing that succeeded: the catalog
    of [Cases.unionCatalog] is listed, then [getGeminiTools] throws, and
    the agent answers with its fallback without a message to the
    model. *)
Example union_type_fails_the_catalog :
  getGeminiTools Sample.cfg Cases.unionCatalog Sample.connected
  = (Raise TYPE_ERROR,
     pushEntry {| request := McpListTools; succeeded := true |}
               Sample.connected)
  /\ generateAnswer Sample.cfg Cases.unionCatalog (js "OpenRTB")
       Sample.connected
     = (Ok {| answer := AGENT_ERROR; success := false |},
        pushEntry {| request := McpListTools; succeeded := true |}
                  Sample.connected).
Proof. vm_compute. split; reflexivity. Qed.

(** C8, as the claim has it, fails.  After a first listing that succeeded,
    the second call sends a second listing request and returns the
    server's new catalog, not the sequence returned before. *)
Lemma second_call_fetches_the_catalog_again :
  let first := getGeminiTools Sample.cfg Sample.growingCatalog Sample.start in
  let second := getGeminiTools Sample.cfg Sample.growingCatalog (snd first) in
  fst first = Ok [Sample.searchDeclaration]
  /\ fst second = Ok [Sample.searchDeclaration; Sample.glossaryDeclaration]
  /\ count isCatalogFetch (history (snd first)) = 1%nat
  /\ count isCatalogFetch (history (snd second)) = 2%nat.
Proof. vm_compute. repeat split. Qed.

(** *** A model that always asks for tools *)

Lemma total_bind {A B : Type} (m : M A) (k : A -> M B) :
  total m -> (forall a, total (k a)) -> total (bind m k).
Proof.
  intros Hm Hk w. unfold bind.
  destruct (Hm w) as (a & w1 & ->). apply Hk.
Qed.

Lemma total_executeTools (cfg : Config) (E : Env)
    (calls : list FunctionCall) :
  forall parts, total (executeTools cfg E calls parts).
Proof.
  induction calls as [|call rest IH]; intros parts; simpl.
  - apply total_ret.
  - apply total_bind; [|intros part; apply IH].
    apply total_tryCatch. intros e. apply total_ret.
Qed.

Lemma getModel_run (cfg : Config) (tools : list FunctionDeclaration)
    (w : World) :
  GEMINI_API_KEY cfg <> [] ->
  exists w', getModel cfg tools w = (Ok tt, w')
             /\ history w' = history w.
Proof.
  intros Hkey. unfold getModel.
  destruct (GEMINI_API_KEY cfg) as [|u key]; [contradiction|]. simpl.
  unfold bind, getWorld.
  destruct (genAI w); eexists; split; reflexivity.
Qed.

Section AlwaysTools.

Variable cfg : Config.
Variable E : Env.

(** The model answers every message, *)
Hypothesis model_answers :
  forall h msg, fault E h (GeminiSendMessage msg) = None.

(** and every answer asks for tools. *)
Hypothesis model_requests :
  forall h, requestsTools (sendMessageResult E h) = true.

Lemma toolLoop_always (k : nat) :
  forall (iteration : nat) (result : GenerateContentResponse) (w : World),
    (MAX_ITERATIONS - iteration = k)%nat ->
    result = sendMessageResult E (history w) ->
    exists new w',
      toolLoop cfg E iteration result w
      = (Ok (sendMessageResult E (history w')), w')
      /\ history w' = new ++ history w
      /\ count isToolBatch new = k
      /\ count isModelCall new = k.
Proof.
  induction k as [|k IH]; intros iteration result w Hk ->;
    rewrite toolLoop_step;
    destruct (lt_dec iteration MAX_ITERATIONS) as [Hlt|Hge]; try lia.
  - exists [], w. repeat split.
  - unfold bind at 1.
    pose proof (model_requests (history w)) as Hreq.
    unfold requestsTools in Hreq.
    destruct (functionCalls (sendMessageResult E (history w)))
      as [[[|call calls]|]|]; try discriminate.
    simpl liftThrows. unfold ret at 1. unfold bind at 1.
    destruct (total_executeTools cfg E (call :: calls) [] w)
      as (parts & w1 & Hexec).
    destruct (emits_executeTools cfg E isModelCall not_mcp_isModelCall
                (call :: calls) [] w) as (new1 & Hhist1 & Hcount1 & _).
    rewrite Hexec in *. simpl in Hhist1.
    unfold bind at 1. unfold sendMessage at 1. unfold bind at 1.
    rewrite await_run, model_answers. unfold bind at 1, getWorld, ret at 1.
    destruct (IH (S iteration)
                (sendMessageResult E
                   (history (pushEntry
                      {| request := GeminiSendMessage (MessageParts parts);
                         succeeded := true |} w1)))
                (pushEntry
                   {| request := GeminiSendMessage (MessageParts parts);
                      succeeded := true |} w1)
                ltac:(lia) eq_refl)
      as (new2 & w' & Hloop & Hhist2 & Hb2 & Hm2).
    exists (new2 ++ {| request := GeminiSendMessage (MessageParts parts);
                       succeeded := true |} :: new1), w'.
    split; [exact Hloop|].
    split; [rewrite Hhist2; simpl; rewrite Hhist1, <- app_assoc; reflexivity|].
    pose proof (count_le_kind isToolBatch isModelCall new1) as Hle.
    rewrite !count_app, !count_cons, Hb2, Hm2. simpl.
    assert (count isToolBatch new1 <= count isModelCall new1)%nat.
    { apply Hle. intros [] Hr; try discriminate. reflexivity. }
    lia.
Qed.

End AlwaysTools.

(** C2, as the code has it.  With the catalog loaded and a model that
    answers every message with a request for tools, [generateAnswer] sends
    exactly [MAX_ITERATIONS] batches (11 messages in all) and then returns
    the text of the model's last answer with [success = true]; only if
    reading that text throws does it return the error fallback. *)
Theorem always_requesting_model_exhausts_bound (cfg : Config) (E : Env)
    (question : jsstring) (w : World) (tools : list FunctionDeclaration)
    (w0 : World) :
  GEMINI_API_KEY cfg <> [] ->
  getGeminiTools cfg E w = (Ok tools, w0) ->
  (forall h msg, fault E h (GeminiSendMessage msg) = None) ->
  (forall h, requestsTools (sendMessageResult E h) = true) ->
  exists new w',
    history w' = new ++ history w
    /\ count isToolBatch new = MAX_ITERATIONS
    /\ count isModelCall new = S MAX_ITERATIONS
    /\ generateAnswer cfg E question w
       = (match response_text (sendMessageResult E (history w')) with
          | Ok text => Ok {| answer := text; success := true |}
          | Raise _ => Ok {| answer := AGENT_ERROR; success := false |}
          end, w').
Proof.
  intros Hkey Hcat Hanswers Hrequests.
  destruct (emits_getGeminiTools cfg E isModelCall not_mcp_isModelCall w)
    as (new0 & Hhist0 & Hcount0 & _).
  rewrite Hcat in Hhist0. simpl in Hhist0.
  destruct (getModel_run cfg tools w0 Hkey) as (w0' & Hmodel & Hhist0').
  set (first := {| request := GeminiSendMessage (MessageText question);
                   succeeded := true |}).
  destruct (toolLoop_always cfg E Hanswers Hrequests MAX_ITERATIONS 0
              (sendMessageResult E (history (pushEntry first w0')))
              (pushEntry first w0') eq_refl eq_refl)
    as (new & w' & Hloop & Hhist & Hbatches & Hcalls).
  exists (new ++ first :: new0), w'.
  split; [rewrite Hhist; simpl; rewrite Hhist0', Hhist0, <- app_assoc;
          reflexivity|].
  pose proof (count_le_kind isToolBatch isModelCall new0) as Hle.
  assert (count isToolBatch new0 <= count isModelCall new0)%nat.
  { apply Hle. intros [] Hr; try discriminate. reflexivity. }
  split; [rewrite count_app, count_cons, Hbatches;
          change (weight isToolBatch (request first)) with 0%nat; lia|].
  split; [rewrite count_app, count_cons, Hcalls;
          change (weight isModelCall (request first)) with 1%nat; lia|].
  assert (Hnil : isNil (GEMINI_API_KEY cfg) = false)
    by (destruct (GEMINI_API_KEY cfg); [contradiction | reflexivity]).
  unfold generateAnswer. rewrite Hnil. unfold tryCatch.
  unfold bind at 1. rewrite Hcat.
  unfold bind at 1. rewrite Hmodel.
  unfold bind at 1. unfold sendMessage at 1. unfold bind at 1.
  rewrite await_run, Hanswers. unfold bind at 1, getWorld, ret at 1.
  unfold bind at 1. fold first. rewrite Hloop.
  unfold bind.
  destruct (response_text (sendMessageResult E (history w'))); reflexivity.
Qed.

Lemma always_requesting_model_exhausts_bound_witness :
  exists new w',
    history w' = new ++ history Sample.start
    /\ count isToolBatch new = MAX_ITERATIONS
    /\ count isModelCall new = S MAX_ITERATIONS
    /\ generateAnswer Sample.cfg Sample.alwaysTools (js "OpenRTB")
         Sample.start
       = (match response_text
                  (sendMessageResult Sample.alwaysTools (history w')) with
          | Ok text => Ok {| answer := text; success := true |}
          | Raise _ => Ok {| answer := AGENT_ERROR; success := false |}
          end, w').
Proof.
  eapply (always_requesting_model_exhausts_bound Sample.cfg
            Sample.alwaysTools (js "OpenRTB") Sample.start).
  - discriminate.
  - reflexivity.
  - reflexivity.
  - reflexivity.
Defined.

(** C2, as the claim has it, fails.  The model of [Sample.alwaysTools]
    asks for a tool on every turn; [generateAnswer] stops after
    [MAX_ITERATIONS] batches and returns the empty text of the last turn
    with [success = true]. *)
Lemma exhausted_agent_reports_success :
  let run := generateAnswer Sample.cfg Sample.alwaysTools (js "OpenRTB")
               Sample.start in
  (forall h, requestsTools (sendMessageResult Sample.alwaysTools h) = true)
  /\ count isToolBatch (history (snd run)) = MAX_ITERATIONS
  /\ fst run = Ok {| answer := []; success := true |}.
Proof.
  split; [reflexivity|]. vm_compute. split; reflexivity.
Qed.

(** *** The empty question *)

(** C7, as the code has it.  For an unseen event whose text is empty once
    the mentions are removed and the rest is trimmed, the handler sends the
    help message to the event's thread and nothing to the model or the MCP
    server.  If the sink accepts the message, the handler writes the
    marker of the event (a failed write is dropped) and answers 200; if the
    sink rejects it, the handler answers 500 and writes no marker. *)
Theorem empty_question_gets_help (cfg : Config) (E : Env)
    (event : SlackEvent) (t : jsstring) (w w1 : World) :
  isEventProcessed E (event_id event) w = (Ok false, w1) ->
  text event = Some t ->
  extractQuestion t = [] ->
  let help := SlackPostMessage (channel event) (thread_ts event)
                HELP_MESSAGE in
  exists resp w' new,
    handleEvent cfg E event w = (Ok resp, w')
    /\ history w' = new ++ history w1
    /\ count isModelCall new = 0%nat
    /\ count isMcpRequest new = 0%nat
    /\ if answers E (history w1) help
       then resp = respond 200 "OK"
            /\ exists marker stored,
                new = [{| request := FirestoreSet (event_id event) marker;
                          succeeded := stored |};
                       {| request := help; succeeded := true |}]
                /\ marker_channel marker = channel event
                /\ marker_ts marker = ts event
                /\ processed_events w'
                   = (if stored
                      then <[event_id event := marker]> (processed_events w)
                      else processed_events w)
       else resp = respond 500 "Processing failed"
            /\ new = [{| request := help; succeeded := false |}]
            /\ processed_events w' = processed_events w.
Proof.
  intros Hseen Htext Hq help.
  assert (Hstore : processed_events w1 = processed_events w).
  { rewrite isEventProcessed_run in Hseen. injection Hseen as _ <-.
    reflexivity. }
  unfold handleEvent. unfold bind at 1. rewrite Hseen.
  unfold tryCatch. unfold bind at 1. rewrite Htext. unfold ret at 1.
  cbv beta iota zeta. rewrite Hq. change (isNil (@nil N)) with true.
  cbv iota.
  rewrite reply_then_mark_run. unfold replyRequest. fold help.
  unfold answers.
  destruct (fault E (history w1) help) as [e|].
  - eexists _, _, [_]. split; [reflexivity|]. split; [reflexivity|].
    split; [reflexivity|]. split; [reflexivity|].
    split; [reflexivity|]. split; [reflexivity|exact Hstore].
  - rewrite markEventProcessed_run. simpl.
    match goal with
    | |- context [answers E ?h (FirestoreSet ?i ?m)] =>
        destruct (answers E h (FirestoreSet i m)) eqn:Hstored
    end.
    + eexists _, _, [_; _]. split; [reflexivity|]. split; [reflexivity|].
      split; [reflexivity|]. split; [reflexivity|].
      split; [reflexivity|]. eexists _, true.
      split; [reflexivity|]. split; [reflexivity|]. split; [reflexivity|].
      simpl. rewrite Hstore. reflexivity.
    + eexists _, _, [_; _]. split; [reflexivity|]. split; [reflexivity|].
      split; [reflexivity|]. split; [reflexivity|].
      split; [reflexivity|]. eexists _, false.
      split; [reflexivity|]. split; [reflexivity|]. split; [reflexivity|].
      simpl. exact Hstore.
Qed.

Lemma empty_question_gets_help_witness :
  let event := Sample.event "<@U0BOT> " in
  let help := SlackPostMessage (channel event) (thread_ts event)
                HELP_MESSAGE in
  let w1 := pushEntry {| request := FirestoreGet (event_id event);
                         succeeded := true |} Sample.start in
  exists resp w' new,
    handleEvent Sample.cfg Sample.healthy event Sample.start = (Ok resp, w')
    /\ history w' = new ++ history w1
    /\ count isModelCall new = 0%nat
    /\ count isMcpRequest new = 0%nat
    /\ if answers Sample.healthy (history w1) help
       then resp = respond 200 "OK"
            /\ exists marker stored,
                new = [{| request := FirestoreSet (event_id event) marker;
                          succeeded := stored |};
                       {| request := help; succeeded := true |}]
                /\ marker_channel marker = channel event
                /\ marker_ts marker = ts event
                /\ processed_events w'
                   = (if stored
                      then <[event_id event := marker]>
                             (processed_events Sample.start)
                      else processed_events Sample.start)
       else resp = respond 500 "Processing failed"
            /\ new = [{| request := help; succeeded := false |}]
            /\ processed_events w' = processed_events Sample.start.
Proof.
  apply (empty_question_gets_help Sample.cfg Sample.healthy
           (Sample.event "<@U0BOT> ") (js "<@U0BOT> ") Sample.start).
  - reflexivity.
  - reflexivity.
  - reflexivity.
Defined.

(** C7, as the claim has it, fails.  The event is unseen and its text is
    one mention; with Slack down the handler answers 500 and no marker is
    written. *)
Lemma help_is_not_acknowledged_when_slack_is_down :
  let event := Sample.event "<@U0BOT> " in
  let run := handleEvent Sample.cfg Sample.slackDown event Sample.start in
  fst (isEventProcessed Sample.slackDown (event_id event) Sample.start)
  = Ok false
  /\ option_map extractQuestion (text event) = Some []
  /\ fst run = Ok (respond 500 "Processing failed")
  /\ count isMarkerWrite (history (snd run)) = 0%nat
  /\ processed_events (snd run) = ∅.
Proof. vm_compute. repeat split. Qed.

Lemma duplicate_delivery_has_no_effect_witness :
  let event := Sample.event "<@BOT> OpenRTBとは" in
  let w1 := snd (handleEvent Sample.cfg Sample.healthy event Sample.start) in
  exists w2 new2,
    handleEvent Sample.cfg Sample.healthy event w1
    = (Ok (respond 200 "Already processed"), w2)
    /\ history w2 = new2 ++ history w1
    /\ count isReply new2 = 0%nat
    /\ count isModelCall new2 = 0%nat
    /\ count isMcpRequest new2 = 0%nat
    /\ count isMarkerWrite new2 = 0%nat.
Proof.
  apply (proj2 (duplicate_delivery_has_no_effect Sample.cfg Sample.healthy
                  (Sample.event "<@BOT> OpenRTBとは"))
           Sample.start (respond 200 "OK")
           (snd (handleEvent Sample.cfg Sample.healthy
                   (Sample.event "<@BOT> OpenRTBとは") Sample.start))
           (history (snd (handleEvent Sample.cfg Sample.healthy
                            (Sample.event "<@BOT> OpenRTBとは")
                            Sample.start)))
           {| processed_at := 0; marker_channel := js "C1";
              marker_ts := js "100.1" |}).
  - vm_compute. reflexivity.
  - vm_compute. reflexivity.
  - vm_compute. left. reflexivity.
  - vm_compute. reflexivity.
Defined.

(** ** The scenario of the specification *)

Example question_of_scenario :
  extractQuestion (js "<@BOT> OpenRTBとは") = js "OpenRTBとは".
Proof. reflexivity. Qed.

Example question_keeps_what_is_not_a_mention :
  extractQuestion (js " <@U1> a <@u1> <@> <@U2|bot> ")
  = js "a <@u1> <@> <@U2|bot>".
Proof. reflexivity. Qed.

Example scenario_first_delivery :
  let run := handleEvent Sample.cfg Sample.healthy
               (Sample.event "<@BOT> OpenRTBとは") Sample.start in
  fst run = Ok (respond 200 "OK")
  /\ List.map request (List.rev (history (snd run)))
     = [FirestoreGet (js "E1");
        McpConnect (js "https://iab-docs.apti.jp/mcp");
        McpListTools;
        GeminiSendMessage (MessageText (js "OpenRTBとは"));
        McpCallTool (js "search")
          (JObject [(js "query", JString (js "OpenRTB"))]);
        GeminiSendMessage
          (MessageParts [{| part_name := js "search";
                            part_response :=
                              ResponseContent (js "passage") |}]);
        SlackPostMessage (js "C1") (js "T1")
          (js "OpenRTB は入札の規格です。");
        FirestoreSet (js "E1")
          {| processed_at := 0; marker_channel := js "C1";
             marker_ts := js "100.1" |}]
  /\ is_Some (processed_events (snd run) !! js "E1").
Proof. vm_compute. repeat split. eexists. reflexivity. Qed.

(** ** The question in a text *)

Lemma stripMentions_cons (c : N) (rest : jsstring) :
  stripMentions (c :: rest) =
  match matchMention (c :: rest) with
  | Some after => stripMentions after
  | None => c :: stripMentions rest
  end.
Proof.
  rewrite stripMentions_equation_2. unfold stripMentions_unfold_clause_2.
  unfold inspect.
  destruct (matchMention (c :: rest)); reflexivity.
Qed.

Lemma matchMention_not_open (c : N) (rest : jsstring) :
  c <> 60 -> matchMention (c :: rest) = None.
Proof.
  intros Hc. unfold matchMention.
  destruct rest as [|a [|b rest]]; try reflexivity.
  apply N.eqb_neq in Hc. rewrite Hc. reflexivity.
Qed.

Lemma skipMentionId_app (id s : jsstring) :
  forallb isMentionIdChar id = true ->
  skipMentionId (id ++ s) = skipMentionId s.
Proof.
  induction id as [|c id IH]; simpl; [reflexivity|].
  intros H. apply andb_prop in H as [-> H]. apply IH, H.
Qed.

Lemma skipMentionId_suffix (s : jsstring) :
  exists k, s = k ++ skipMentionId s.
Proof.
  induction s as [|c s [k IH]]; simpl.
  - exists []. reflexivity.
  - destruct (isMentionIdChar c).
    + exists (c :: k). simpl. rewrite <- IH. reflexivity.
    + exists []. reflexivity.
Qed.

Lemma matchMention_suffix (s after : jsstring) :
  matchMention s = Some after ->
  exists k, s = k ++ after /\ (length after < length s)%nat.
Proof.
  unfold matchMention.
  destruct s as [|a [|b [|c rest]]]; try discriminate.
  destruct ((a =? 60) && (b =? 64) && isMentionIdChar c); try discriminate.
  destruct (skipMentionId_suffix rest) as [k Hk].
  destruct (skipMentionId rest) as [|d after']; try discriminate.
  destruct (d =? 62); try discriminate.
  intros [= ->]. exists (a :: b :: c :: k ++ [d]).
  split.
  - simpl. rewrite <- app_assoc. simpl. rewrite <- Hk. reflexivity.
  - rewrite Hk. simpl. rewrite List.length_app. simpl. lia.
Qed.

Lemma stripMentions_removes_mention_blank (id rest : jsstring) :
  isMentionId id ->
  stripMentions (mention id ++ rest) = stripMentions rest.
Proof.
  intros [Hne Hid]. unfold mention. simpl.
  rewrite stripMentions_cons.
  destruct id as [|c id]; [contradiction|].
  simpl in Hid. apply andb_prop in Hid as [Hc Hid].
  unfold matchMention. simpl. rewrite Hc. simpl.
  rewrite <- app_assoc, (skipMentionId_app id _ Hid). simpl.
  reflexivity.
Qed.

(** X1.  A well-formed mention is removed whole, wherever the scan meets
    it: after any text that holds no [<], the result is that text followed
    by what the rest gives. *)
Theorem stripMentions_removes_mention (before id rest : jsstring) :
  ~ In 60 before ->
  isMentionId id ->
  stripMentions (before ++ mention id ++ rest)
  = before ++ stripMentions rest.
Proof.
  intros Hno Hid.
  induction before as [|c before IH]; cbn [app].
  - apply stripMentions_removes_mention_blank, Hid.
  - rewrite stripMentions_cons, matchMention_not_open.
    + rewrite IH; [reflexivity|]. intros Hin. apply Hno. right. exact Hin.
    + intros ->. apply Hno. left. reflexivity.
Qed.

Lemma stripMentions_removes_mention_witness :
  stripMentions (js "Hi " ++ mention (js "U0BOT") ++ js " OpenRTB")
  = js "Hi " ++ stripMentions (js " OpenRTB").
Proof.
  apply (stripMentions_removes_mention (js "Hi ") (js "U0BOT")
           (js " OpenRTB")).
  - vm_compute. intuition discriminate.
  - split; [discriminate | reflexivity].
Defined.

(** X2.  A text without [<] is returned as it is. *)
Theorem stripMentions_keeps_plain_text (s : jsstring) :
  ~ In 60 s -> stripMentions s = s.
Proof.
  induction s as [|c s IH]; intros Hno.
  - apply stripMentions_equation_1.
  - rewrite stripMentions_cons, matchMention_not_open.
    + rewrite IH; [reflexivity|]. intros Hin. apply Hno. right. exact Hin.
    + intros ->. apply Hno. left. reflexivity.
Qed.

Lemma stripMentions_keeps_plain_text_witness :
  stripMentions (js "OpenRTBとは？") = js "OpenRTBとは？".
Proof.
  apply (stripMentions_keeps_plain_text (js "OpenRTBとは？")).
  vm_compute. intuition discriminate.
Defined.

(** X3.  Removing mentions only deletes: the result is a subsequence of
    the text, in the same order, and is never longer. *)
Theorem stripMentions_only_deletes (s : jsstring) :
  sublist (stripMentions s) s
  /\ (length (stripMentions s) <= length s)%nat.
Proof.
  assert (Hsub : forall n s, (length s <= n)%nat ->
                             sublist (stripMentions s) s).
  { clear s. induction n as [|n IH]; intros [|c s] Hlen; simpl in Hlen;
      try lia; try (rewrite stripMentions_equation_1; constructor).
    rewrite stripMentions_cons.
    destruct (matchMention (c :: s)) as [after|] eqn:Hm.
    - destruct (matchMention_suffix _ _ Hm) as (k & Hk & Hlt).
      rewrite Hk. apply sublist_inserts_l. apply IH. simpl in Hlt. lia.
    - apply sublist_skip. apply IH. lia. }
  split; [apply (Hsub (length s)); lia|].
  apply sublist_length, (Hsub (length s)). lia.
Qed.

Lemma trimStart_head (s : jsstring) (c : N) :
  head (trimStart s) = Some c -> isWhiteSpace c = false.
Proof.
  induction s as [|d s IH]; simpl; [discriminate|].
  destruct (isWhiteSpace d) eqn:Hd; [exact IH|].
  simpl. intros [= <-]. exact Hd.
Qed.

Lemma trimStart_fixed (s : jsstring) :
  (forall c, head s = Some c -> isWhiteSpace c = false) -> trimStart s = s.
Proof.
  destruct s as [|d s]; simpl; [reflexivity|].
  intros H. rewrite (H d eq_refl). reflexivity.
Qed.

Lemma trimStart_idempotent (s : jsstring) :
  trimStart (trimStart s) = trimStart s.
Proof. apply trimStart_fixed, trimStart_head. Qed.

Lemma trimStart_snoc (s : jsstring) (c : N) :
  isWhiteSpace c = false -> trimStart (s ++ [c]) = trimStart s ++ [c].
Proof.
  intros Hc. induction s as [|d s IH]; simpl.
  - rewrite Hc. reflexivity.
  - destruct (isWhiteSpace d); [exact IH | reflexivity].
Qed.

Lemma trimEnd_cons (c : N) (s : jsstring) :
  isWhiteSpace c = false -> trimEnd (c :: s) = c :: trimEnd s.
Proof.
  intros Hc. unfold trimEnd. simpl.
  rewrite (trimStart_snoc _ _ Hc), List.rev_app_distr. reflexivity.
Qed.

Lemma trimEnd_idempotent (s : jsstring) : trimEnd (trimEnd s) = trimEnd s.
Proof.
  unfold trimEnd. rewrite List.rev_involutive, trimStart_idempotent.
  reflexivity.
Qed.

Lemma trim_head (s : jsstring) (c : N) :
  head (trim s) = Some c -> isWhiteSpace c = false.
Proof.
  unfold trim.
  pose proof (trimStart_head s) as Hhead.
  destruct (trimStart s) as [|d rest]; [discriminate|].
  specialize (Hhead d eq_refl).
  rewrite (trimEnd_cons _ _ Hhead). simpl. intros [= <-]. exact Hhead.
Qed.

Lemma trim_last (s : jsstring) (c : N) :
  last (trim s) = Some c -> isWhiteSpace c = false.
Proof.
  unfold trim, trimEnd.
  pose proof (trimStart_head (List.rev (trimStart s))) as Hhead.
  destruct (trimStart (List.rev (trimStart s))) as [|d rest];
    [discriminate|].
  simpl. rewrite last_snoc. intros [= <-]. apply Hhead. reflexivity.
Qed.

(** X4.  The question the handler extracts neither begins nor ends with
    white space, and trimming it again changes nothing. *)
Theorem extractQuestion_is_trimmed (text : jsstring) :
  (forall c, head (extractQuestion text) = Some c -> isWhiteSpace c = false)
  /\ (forall c, last (extractQuestion text) = Some c ->
                isWhiteSpace c = false)
  /\ trim (extractQuestion text) = extractQuestion text.
Proof.
  unfold extractQuestion.
  split; [apply trim_head|]. split; [apply trim_last|].
  unfold trim at 1.
  rewrite (trimStart_fixed _ (trim_head (stripMentions text))).
  unfold trim. apply trimEnd_idempotent.
Qed.

Lemma blank_is_not_open (c : N) : isWhiteSpace c = true -> c <> 60.
Proof. intros Hc ->. discriminate. Qed.

Lemma stripMentions_blank_prefix (blank s : jsstring) :
  isBlank blank -> stripMentions (blank ++ s) = blank ++ stripMentions s.
Proof.
  unfold isBlank. induction blank as [|c blank IH]; simpl; [reflexivity|].
  intros H. apply andb_prop in H as [Hc H].
  rewrite stripMentions_cons, (matchMention_not_open _ _ (blank_is_not_open _ Hc)).
  rewrite (IH H). reflexivity.
Qed.

Lemma trim_blank (s : jsstring) : isBlank s -> trim s = [].
Proof.
  unfold isBlank, trim. intros H.
  assert (Hs : trimStart s = []).
  { induction s as [|c s IH]; simpl in *; [reflexivity|].
    apply andb_prop in H as [-> H]. apply IH, H. }
  rewrite Hs. reflexivity.
Qed.

(** X5.  A text made only of mentions and white space (white space before
    each mention and after the last) holds no question: what the handler
    extracts from it is empty. *)
Theorem mentions_and_blanks_hold_no_question
    (pieces : list (jsstring * jsstring)) (tail : jsstring) :
  Forall (fun piece => isBlank (fst piece) /\ isMentionId (snd piece))
    pieces ->
  isBlank tail ->
  extractQuestion (mentionsOnly pieces ++ tail) = [].
Proof.
  intros Hpieces Htail. unfold extractQuestion.
  assert (Hstrip : stripMentions (mentionsOnly pieces ++ tail)
                   = List.concat (List.map fst pieces) ++ tail).
  { induction Hpieces as [|[blank id] pieces [Hblank Hid] _ IH];
      unfold mentionsOnly; simpl.
    - rewrite <- (app_nil_r tail) at 1.
      rewrite (stripMentions_blank_prefix _ _ Htail), stripMentions_equation_1.
      apply app_nil_r.
    - rewrite <- !app_assoc.
      rewrite (stripMentions_blank_prefix _ _ Hblank).
      rewrite (stripMentions_removes_mention_blank id _ Hid).
      fold (mentionsOnly pieces). rewrite IH. reflexivity. }
  rewrite Hstrip. apply trim_blank. unfold isBlank.
  rewrite forallb_app. apply andb_true_intro. split; [|exact Htail].
  clear Hstrip.
  induction Hpieces as [|[blank id] pieces [Hblank _] _ IH]; simpl;
    [reflexivity|].
  rewrite forallb_app. apply andb_true_intro.
  split; [exact Hblank | exact IH].
Qed.

Lemma mentions_and_blanks_hold_no_question_witness :
  extractQuestion
    (mentionsOnly [(js " ", js "U0BOT"); (js "　", js "U1")] ++ js " ")
  = [].
Proof.
  apply (mentions_and_blanks_hold_no_question
           [(js " ", js "U0BOT"); (js "　", js "U1")] (js " ")).
  - repeat constructor; discriminate.
  - reflexivity.
Defined.

(** ** Schemas *)

Lemma toLowerCase_idempotent (s : jsstring) :
  toLowerCase (toLowerCase s) = toLowerCase s.
Proof.
  unfold toLowerCase. rewrite List.map_map. apply List.map_ext. intros c.
  destruct ((65 <=? c) && (c <=? 90)) eqn:Hc; [|rewrite Hc; reflexivity].
  apply andb_prop in Hc as [H1 H2].
  apply N.leb_le in H1, H2.
  assert (H : (c + 32 <=? 90) = false) by (apply N.leb_gt; lia).
  rewrite H, andb_false_r. reflexivity.
Qed.

(** X6.  [mapSchemaType] matches type names whatever the case of their
    Basic Latin letters, and gives [STRING] for a missing type and for
    every name that is not one of number, integer, boolean, array and
    object; it throws on no name. *)
Theorem mapSchemaType_default_and_case (t : jsstring) :
  mapSchemaType (Some (JString (toLowerCase t)))
  = mapSchemaType (Some (JString t))
  /\ mapSchemaType None = Ok STRING
  /\ (~ In (toLowerCase t) knownTypeNames ->
      mapSchemaType (Some (JString t)) = Ok STRING)
  /\ (mapSchemaType (Some (JString t)) = Ok OBJECT
      <-> toLowerCase t = js "object")
  /\ (mapSchemaType (Some (JString t)) = Ok ARRAY
      <-> toLowerCase t = js "array")
  /\ (exists type, mapSchemaType (Some (JString t)) = Ok type).
Proof.
  split; [|split; [reflexivity|split; [|split; [|split]]]].
  - unfold mapSchemaType. cbv beta iota zeta.
    rewrite toLowerCase_idempotent. reflexivity.
  - intros Hno. unfold mapSchemaType. cbv beta iota zeta.
    repeat match goal with
           | |- context [decide (?a = ?b)] =>
               destruct (decide (a = b)) as [Heq|_];
               [exfalso; apply Hno; rewrite Heq; vm_compute; tauto|]
           | |- context [decide (?a = js "string")] =>
               destruct (decide (a = js "string")); [reflexivity|]
           end.
    reflexivity.
  - unfold mapSchemaType. cbv beta iota zeta. split.
    + repeat match goal with
             | |- context [decide (?a = ?b)] =>
                 destruct (decide (a = b)) as [Heq|_]
             end; try discriminate. intros _. exact Heq.
    + intros ->. reflexivity.
  - unfold mapSchemaType. cbv beta iota zeta. split.
    + repeat match goal with
             | |- context [decide (?a = ?b)] =>
                 destruct (decide (a = b)) as [Heq|_]
             end; try discriminate. intros _. exact Heq.
    + intros ->. reflexivity.
  - apply mapSchemaType_returns. reflexivity.
Qed.



(** A property named [__proto__] is converted and lost; its neighbours
    are kept. *)
Example proto_property_is_lost :
  let leaf :=
    MkJsonSchema (Some (JString (js "string"))) None None None None None
      None in
  convertSchema
    (Some (MkJsonSchema (Some (JString (js "object"))) None None
             (Some [(js "query", leaf); (PROTO, leaf); (js "limit", leaf)])
             None None None))
  = Ok (Some (MkGeminiSchema OBJECT None None
                (Some [(js "query",
                        MkGeminiSchema STRING None None None None None None);
                       (js "limit",
                        MkGeminiSchema STRING None None None None None None)])
                None None None)).
Proof. vm_compute. reflexivity. Qed.

(** ** More on the primitives *)

Lemma sendMessage_run (E : Env) (msg : ChatMessage) (w : World) :
  sendMessage E msg w =
  match fault E (history w) (GeminiSendMessage msg) with
  | Some e =>
      (Raise e,
       pushEntry {| request := GeminiSendMessage msg; succeeded := false |} w)
  | None =>
      (Ok (sendMessageResult E
             ({| request := GeminiSendMessage msg; succeeded := true |}
              :: history w)),
       pushEntry {| request := GeminiSendMessage msg; succeeded := true |} w)
  end.
Proof.
  unfold sendMessage. unfold bind at 1. rewrite await_run.
  destruct (fault E (history w) (GeminiSendMessage msg)); reflexivity.
Qed.

Lemma getClient_first (cfg : Config) (E : Env) (w : World) :
  client w = None ->
  getClient cfg E w =
  if isURL E (MCP_URL cfg) then
    match fault E (history w) (McpConnect (MCP_URL cfg)) with
    | Some e =>
        (Raise e,
         pushEntry {| request := McpConnect (MCP_URL cfg);
                      succeeded := false |} (withClient theClient w))
    | None =>
        (Ok theClient,
         pushEntry {| request := McpConnect (MCP_URL cfg);
                      succeeded := true |} (withClient theClient w))
    end
  else (Raise {| message := js "Invalid URL" |}, w).
Proof.
  intros Hc. unfold getClient. unfold bind at 1. unfold getWorld.
  rewrite Hc. destruct (isURL E (MCP_URL cfg)); [|reflexivity].
  unfold bind, setClient. rewrite await_run. simpl.
  destruct (fault E (history w) (McpConnect (MCP_URL cfg))); reflexivity.
Qed.

Lemma bind_Ok {A B : Type} (m : M A) (k : A -> M B) (w w' : World) (b : B) :
  bind m k w = (Ok b, w') ->
  exists a w1, m w = (Ok a, w1) /\ k a w1 = (Ok b, w').
Proof.
  unfold bind. destruct (m w) as [[a|e] w1]; [eauto | discriminate].
Qed.

(** ** The client *)

(** X8.  The client is stored before the connection is awaited: when the
    first connection fails, [getClient] throws, yet the client stays in
    the module variable, and the next call returns it without connecting
    again. *)
Theorem failed_connect_leaves_client_cached (cfg : Config) (E : Env)
    (w : World) (err : JsError) :
  client w = None ->
  isURL E (MCP_URL cfg) = true ->
  fault E (history w) (McpConnect (MCP_URL cfg)) = Some err ->
  exists w',
    getClient cfg E w = (Raise err, w')
    /\ history w' = {| request := McpConnect (MCP_URL cfg);
                       succeeded := false |} :: history w
    /\ client w' = Some theClient
    /\ getClient cfg E w' = (Ok theClient, w').
Proof.
  intros Hc Hurl Hfault.
  rewrite (getClient_first cfg E w Hc), Hurl, Hfault.
  eexists. split; [reflexivity|]. split; [reflexivity|].
  split; [reflexivity|]. apply getClient_cached. reflexivity.
Qed.

Lemma failed_connect_leaves_client_cached_witness :
  exists w',
    getClient Sample.cfg Cases.noServer Sample.start
    = (Raise {| message := js "ECONNREFUSED" |}, w')
    /\ history w' = {| request := McpConnect (MCP_URL Sample.cfg);
                       succeeded := false |} :: history Sample.start
    /\ client w' = Some theClient
    /\ getClient Sample.cfg Cases.noServer w' = (Ok theClient, w').
Proof.
  apply (failed_connect_leaves_client_cached Sample.cfg Cases.noServer
           Sample.start {| message := js "ECONNREFUSED" |}).
  - reflexivity.
  - reflexivity.
  - reflexivity.
Defined.

(** X9.  When [getGeminiTools] returns, it has just listed the server's
    tools, and it declares every listed tool, in order, under the tool's
    name; a tool without description is declared with the empty
    description. *)
Theorem getGeminiTools_declares_every_tool (cfg : Config) (E : Env)
    (w w' : World) (declarations : list FunctionDeclaration) :
  getGeminiTools cfg E w = (Ok declarations, w') ->
  exists rest,
    history w' = {| request := McpListTools; succeeded := true |} :: rest
    /\ List.map fd_name declarations
       = List.map tool_name (listToolsResult E (history w'))
    /\ length declarations = length (listToolsResult E (history w'))
    /\ Forall2 (fun t d =>
                  tool_description t = None -> fd_description d = [])
         (listToolsResult E (history w')) declarations.
Proof.
  unfold getGeminiTools. intros Hrun.
  apply bind_Ok in Hrun as (c & w1 & _ & Hrun).
  apply bind_Ok in Hrun as ([] & w2 & Hlist & Hrun).
  rewrite await_run in Hlist.
  destruct (fault E (history w1) McpListTools); [discriminate|].
  injection Hlist as <-.
  unfold bind, getWorld in Hrun.
  destruct (mapThrows toolDeclaration _) as [ds|] eqn:Hmap;
    [|discriminate].
  unfold liftThrows, ret in Hrun. injection Hrun as <- <-.
  apply declarations_follow_tools in Hmap
    as (Hnames & Hlength & Hdescriptions).
  exists (history w1). split; [reflexivity|].
  split; [exact Hnames|]. split; [exact Hlength|].
  clear Hnames Hlength.
  induction Hdescriptions as [|t d tools ds' Hd _ IH]; [constructor|].
  constructor; [|exact IH].
  intros Hnone. rewrite Hd, Hnone. reflexivity.
Qed.

Lemma getGeminiTools_declares_every_tool_witness :
  exists rest,
    history (snd (getGeminiTools Sample.cfg Cases.direct Sample.start))
    = {| request := McpListTools; succeeded := true |} :: rest
    /\ List.map fd_name
         [Sample.searchDeclaration; Sample.glossaryDeclaration]
       = List.map tool_name
           (listToolsResult Cases.direct
              (history (snd (getGeminiTools Sample.cfg Cases.direct
                               Sample.start))))
    /\ length [Sample.searchDeclaration; Sample.glossaryDeclaration]
       = length
           (listToolsResult Cases.direct
              (history (snd (getGeminiTools Sample.cfg Cases.direct
                               Sample.start))))
    /\ Forall2 (fun t d =>
                  tool_description t = None -> fd_description d = [])
         (listToolsResult Cases.direct
            (history (snd (getGeminiTools Sample.cfg Cases.direct
                             Sample.start))))
         [Sample.searchDeclaration; Sample.glossaryDeclaration].
Proof.
  apply (getGeminiTools_declares_every_tool Sample.cfg Cases.direct
           Sample.start).
  reflexivity.
Defined.

(** ** More on the answer agent *)

Lemma isNil_false {A : Type} (l : list A) : l <> [] -> isNil l = false.
Proof. destruct l; [contradiction | reflexivity]. Qed.

(** X10.  When the catalog cannot be loaded the agent gives up at once:
    it returns the error fallback with [success = false] and has sent
    nothing to the model. *)
Theorem catalog_failure_gives_fallback (cfg : Config) (E : Env)
    (question : jsstring) (w w0 : World) (err : JsError) :
  GEMINI_API_KEY cfg <> [] ->
  getGeminiTools cfg E w = (Raise err, w0) ->
  generateAnswer cfg E question w
  = (Ok {| answer := AGENT_ERROR; success := false |}, w0)
  /\ exists new, history w0 = new ++ history w
                 /\ count isModelCall new = 0%nat.
Proof.
  intros Hkey Hcat. split.
  - unfold generateAnswer. rewrite (isNil_false _ Hkey).
    unfold tryCatch, bind. rewrite Hcat. reflexivity.
  - destruct (emits_getGeminiTools cfg E isModelCall not_mcp_isModelCall w)
      as (new & Hhist & Hcount & _).
    rewrite Hcat in Hhist. simpl in Hhist.
    exists new. split; [exact Hhist | lia].
Qed.

Lemma catalog_failure_gives_fallback_witness :
  generateAnswer Sample.cfg Cases.badUrl (js "OpenRTB") Sample.start
  = (Ok {| answer := AGENT_ERROR; success := false |}, Sample.start)
  /\ exists new, history Sample.start = new ++ history Sample.start
                 /\ count isModelCall new = 0%nat.
Proof.
  apply (catalog_failure_gives_fallback Sample.cfg Cases.badUrl
           (js "OpenRTB") Sample.start Sample.start
           {| message := js "Invalid URL" |}).
  - discriminate.
  - reflexivity.
Defined.


Lemma tryCatch_cases {A : Type} (m : M A) (handler : JsError -> M A)
    (w : World) :
  (exists a w', m w = (Ok a, w') /\ tryCatch m handler w = (Ok a, w'))
  \/ (exists e w', m w = (Raise e, w')
                   /\ tryCatch m handler w = handler e w').
Proof.
  unfold tryCatch. destruct (m w) as [[a|e] w']; [left|right]; eauto.
Qed.


(** X12.  When the first answer of the model asks for no tool, the agent
    returns its text with [success = true], after one message to the model
    and no tool call. *)
Theorem direct_answer_is_returned (cfg : Config) (E : Env)
    (question text : jsstring) (w w0 : World)
    (tools : list FunctionDeclaration)
    (requested : option (list FunctionCall)) :
  let first := {| request := GeminiSendMessage (MessageText question);
                  succeeded := true |} in
  GEMINI_API_KEY cfg <> [] ->
  getGeminiTools cfg E w = (Ok tools, w0) ->
  fault E (history w0) (GeminiSendMessage (MessageText question)) = None ->
  functionCalls (sendMessageResult E (first :: history w0)) = Ok requested ->
  requestsTools (sendMessageResult E (first :: history w0)) = false ->
  response_text (sendMessageResult E (first :: history w0)) = Ok text ->
  exists w',
    generateAnswer cfg E question w
    = (Ok {| answer := text; success := true |}, w')
    /\ history w' = first :: history w0.
Proof.
  intros first Hkey Hcat Hfault Hcalls Hnone Htext.
  destruct (getModel_run cfg tools w0 Hkey) as (w1 & Hmodel & Hhist).
  exists (pushEntry first w1).
  split; [|simpl; rewrite Hhist; reflexivity].
  unfold generateAnswer. rewrite (isNil_false _ Hkey). unfold tryCatch.
  unfold bind at 1. rewrite Hcat.
  unfold bind at 1. rewrite Hmodel.
  unfold bind at 1. rewrite sendMessage_run, Hhist, Hfault. fold first.
  unfold bind at 1. rewrite toolLoop_step.
  destruct (lt_dec 0 MAX_ITERATIONS) as [_|Hge];
    [|exfalso; apply Hge; unfold MAX_ITERATIONS; lia].
  unfold requestsTools in Hnone. rewrite Hcalls in Hnone.
  unfold bind at 1. rewrite Hcalls. simpl liftThrows. unfold ret at 1.
  destruct requested as [[|call calls]|]; try discriminate;
    unfold ret at 1; unfold bind; rewrite Htext; reflexivity.
Qed.

Lemma direct_answer_is_returned_witness :
  let first := {| request := GeminiSendMessage (MessageText (js "OpenRTB"));
                  succeeded := true |} in
  exists w',
    generateAnswer Sample.cfg Cases.direct (js "OpenRTB") Sample.connected
    = (Ok {| answer := js "answer"; success := true |}, w')
    /\ history w'
       = first :: {| request := McpListTools; succeeded := true |}
               :: history Sample.connected.
Proof.
  apply (direct_answer_is_returned Sample.cfg Cases.direct (js "OpenRTB")
           (js "answer") Sample.connected
           (pushEntry {| request := McpListTools; succeeded := true |}
                      Sample.connected)
           [Sample.searchDeclaration; Sample.glossaryDeclaration]
           None).
  - discriminate.
  - reflexivity.
  - reflexivity.
  - reflexivity.
  - reflexivity.
  - reflexivity.
Defined.

(** X13.  The agent never touches the ledger or Slack: whatever happens,
    [generateAnswer] adds no Firestore read, no marker write and no reply
    to the history, and the store of markers is as it was. *)
Theorem generateAnswer_leaves_ledger_alone (cfg : Config) (E : Env)
    (question : jsstring) (w : World) :
  exists new,
    history (snd (generateAnswer cfg E question w)) = new ++ history w
    /\ count isLedgerRead new = 0%nat
    /\ count isMarkerWrite new = 0%nat
    /\ count isReply new = 0%nat
    /\ processed_events (snd (generateAnswer cfg E question w))
       = processed_events w.
Proof.
  destruct (emits_generateAnswer cfg E isHandlerRequest
              not_mcp_isHandlerRequest 0 (fun parts => le_n 0) question w)
    as (new & Hhist & Hcount & Hstore).
  exists new. split; [exact Hhist|].
  assert (Hzero : count isHandlerRequest new = 0%nat)
    by (unfold weight in Hcount; simpl in Hcount; lia).
  assert (Hkind : forall p : Request -> bool,
             (forall r, p r = true -> isHandlerRequest r = true) ->
             count p new = 0%nat).
  { intros p Hp. pose proof (count_le_kind p isHandlerRequest new Hp). lia. }
  split; [|split; [|split; [|exact Hstore]]]; apply Hkind;
    intros r Hr; unfold isHandlerRequest; rewrite Hr;
    repeat rewrite orb_true_r; reflexivity.
Qed.

(** ** The single-shot variant *)


(** ** More on the delivery handler *)

Lemma count_handler_kind (p : Request -> bool) (h : list Entry) :
  (forall r, p r = true -> isHandlerRequest r = true) ->
  count isHandlerRequest h = 0%nat -> count p h = 0%nat.
Proof.
  intros Hp Hzero. pose proof (count_le_kind p isHandlerRequest h Hp). lia.
Qed.

Lemma agent_entries (agentNew : list Entry) :
  count isHandlerRequest agentNew = 0%nat ->
  count isLedgerRead agentNew = 0%nat
  /\ count isReply agentNew = 0%nat
  /\ count isMarkerWrite agentNew = 0%nat.
Proof.
  intros Hzero.
  split; [|split]; apply count_handler_kind; try exact Hzero;
    intros r Hr; unfold isHandlerRequest; rewrite Hr;
    repeat rewrite orb_true_r; reflexivity.
Qed.

(** X15.  A delivery reads the ledger once, sends at most one reply and
    writes at most one marker; the reply goes to the channel and thread of
    the event, the marker is written under the event's id with the event's
    channel and timestamp; and the response is 200 or 500. *)
Theorem delivery_requests (cfg : Config) (E : Env) (event : SlackEvent)
    (w : World) :
  exists resp w' new,
    handleEvent cfg E event w = (Ok resp, w')
    /\ history w' = new ++ history w
    /\ count isLedgerRead new = 1%nat
    /\ (count isReply new <= 1)%nat
    /\ (count isMarkerWrite new <= 1)%nat
    /\ (forall e, In e new -> isReply (request e) = true ->
          exists replyText,
            request e
            = SlackPostMessage (channel event) (thread_ts event) replyText)
    /\ (forall e, In e new -> isMarkerWrite (request e) = true ->
          exists marker,
            request e = FirestoreSet (event_id event) marker
            /\ marker_channel marker = channel event
            /\ marker_ts marker = ts event)
    /\ (status resp = 200 \/ status resp = 500).
Proof.
  destruct (handleEvent_outcome cfg E event w) as (resp & w' & Hrun & Hout).
  destruct (outcome_trace cfg E event _ _ _ Hout) as (new & Hhist & Htrace).
  exists resp, w', new. split; [exact Hrun|]. split; [exact Hhist|].
  destruct Htrace as [Hr Hs Hst | ok Hr Ht Hst | ok agentNew replyText Hr Hc Hst
                      | ok stored agentNew replyText marker Hr Hc Hch Hts Hst];
    subst resp;
    try (destruct (agent_entries _ Hc) as (Hreads & Hreplies & Hmarks));
    rewrite ?count_cons, ?count_app, ?Hreads, ?Hreplies, ?Hmarks;
    unfold count, weight; simpl;
    (split; [reflexivity|]); (split; [lia|]); (split; [lia|]).
  - split; [|split; [|left; reflexivity]];
      intros e [<-|[]] He; discriminate.
  - split; [|split; [|right; reflexivity]];
      intros e [<-|[]] He; discriminate.
  - split; [|split; [|right; reflexivity]].
    + intros e [<-|Hin] He; [eexists; reflexivity|].
      apply in_app_or in Hin as [Hin|[<-|[]]]; [|discriminate].
      pose proof (count_zero_not_In _ _ _ Hreplies Hin). congruence.
    + intros e [<-|Hin] He; [discriminate|].
      apply in_app_or in Hin as [Hin|[<-|[]]]; [|discriminate].
      pose proof (count_zero_not_In _ _ _ Hmarks Hin). congruence.
  - split; [|split; [|left; reflexivity]].
    + intros e [<-|[<-|Hin]] He; [discriminate|eexists; reflexivity|].
      apply in_app_or in Hin as [Hin|[<-|[]]]; [|discriminate].
      pose proof (count_zero_not_In _ _ _ Hreplies Hin). congruence.
    + intros e [<-|[<-|Hin]] He; [eauto|discriminate|].
      apply in_app_or in Hin as [Hin|[<-|[]]]; [|discriminate].
      pose proof (count_zero_not_In _ _ _ Hmarks Hin). congruence.
Qed.

(** X16.  A delivery changes the store of markers at most under the id of
    its own event: the markers of other events are as they were, and no
    marker is ever removed. *)
Theorem delivery_changes_only_its_marker (cfg : Config) (E : Env)
    (event : SlackEvent) (w : World) :
  exists resp w',
    handleEvent cfg E event w = (Ok resp, w')
    /\ (forall other : jsstring,
          other <> event_id event ->
          processed_events w' !! other = processed_events w !! other)
    /\ (forall eventId : jsstring,
          is_Some (processed_events w !! eventId) ->
          is_Some (processed_events w' !! eventId)).
Proof.
  destruct (handleEvent_outcome cfg E event w) as (resp & w' & Hrun & Hout).
  destruct (outcome_trace cfg E event _ _ _ Hout) as (new & Hhist & Htrace).
  exists resp, w'. split; [exact Hrun|].
  destruct Htrace as [Hr Hs Hst | ok Hr Ht Hst | ok agentNew replyText Hr Hc Hst
                      | ok stored agentNew replyText marker Hr Hc Hch Hts Hst];
    rewrite Hst; try (split; intros; [reflexivity | assumption]).
  destruct stored; [|split; intros; [reflexivity | assumption]].
  split.
  - intros other Hother. apply lookup_insert_ne. congruence.
  - intros eventId Hsome.
    destruct (decide (eventId = event_id event)) as [->|Hne].
    + rewrite lookup_insert_eq. eauto.
    + rewrite lookup_insert_ne; [exact Hsome | congruence].
Qed.

(** X17.  Marking and checking round-trip through the store.  When the
    store accepts the write, the marker is stored under the event's id and
    the next check that can read the ledger answers [true]; when the store
    refuses it, nothing is stored and the next check answers what the
    store said before. *)
Theorem mark_then_check (E : Env) (eventId channel ts : jsstring)
    (w : World) :
  let marker := {| processed_at := now E (history w);
                   marker_channel := channel;
                   marker_ts := ts |} in
  let w1 := snd (markEventProcessed E eventId channel ts w) in
  let readable := answers E (history w1) (FirestoreGet eventId) in
  if answers E (history w) (FirestoreSet eventId marker)
  then processed_events w1 = <[eventId := marker]> (processed_events w)
       /\ fst (isEventProcessed E eventId w1) = Ok readable
  else processed_events w1 = processed_events w
       /\ fst (isEventProcessed E eventId w1)
          = Ok (readable
                && bool_decide (is_Some (processed_events w !! eventId))).
Proof.
  intros marker w1 readable. subst w1 readable.
  rewrite markEventProcessed_run. fold marker.
  destruct (answers E (history w) (FirestoreSet eventId marker)); simpl;
    (split; [reflexivity|]); rewrite isEventProcessed_run; simpl.
  - rewrite lookup_insert_eq.
    rewrite (bool_decide_eq_true_2 _ (mk_is_Some _ _ eq_refl)).
    rewrite andb_true_r. reflexivity.
  - reflexivity.
Qed.

(** X18.  The handler does not look at the agent's [success] flag.  For an
    unseen event with a question, whatever the agent returns, a fallback
    text included, is sent as the reply; and once Slack accepts it the
    marker is written and the delivery is answered 200, so the question is
    not retried. *)
Theorem answer_is_delivered_whatever_the_flag (cfg : Config) (E : Env)
    (event : SlackEvent) (t : jsstring) (w w1 w2 : World)
    (result : GenerateAnswerResult) :
  isEventProcessed E (event_id event) w = (Ok false, w1) ->
  text event = Some t ->
  extractQuestion t <> [] ->
  generateAnswer cfg E (extractQuestion t) w1 = (Ok result, w2) ->
  answers E (history w2) (replyRequest event (answer result)) = true ->
  exists w' marker stored,
    handleEvent cfg E event w = (Ok (respond 200 "OK"), w')
    /\ history w'
       = {| request := FirestoreSet (event_id event) marker;
            succeeded := stored |}
         :: {| request := replyRequest event (answer result);
               succeeded := true |}
         :: history w2.
Proof.
  intros Hseen Htext Hq Hanswer Hreply.
  unfold handleEvent. unfold bind at 1. rewrite Hseen.
  unfold tryCatch. unfold bind at 1. rewrite Htext. unfold ret at 1.
  cbv beta iota zeta. rewrite (isNil_false _ Hq).
  unfold bind at 1. rewrite Hanswer. rewrite reply_then_mark_run.
  unfold answers in Hreply.
  destruct (fault E (history w2) (replyRequest event (answer result)));
    [discriminate|].
  rewrite markEventProcessed_run. simpl.
  match goal with
  | |- context [answers E ?h (FirestoreSet ?i ?m)] =>
      destruct (answers E h (FirestoreSet i m))
  end; eexists _, _, _; split; reflexivity.
Qed.

Lemma answer_is_delivered_whatever_the_flag_witness :
  exists w' marker stored,
    handleEvent Sample.cfg_no_key Sample.healthy
      (Sample.event "<@U0BOT> OpenRTB") Sample.start
    = (Ok (respond 200 "OK"), w')
    /\ history w'
       = {| request := FirestoreSet
                         (event_id (Sample.event "<@U0BOT> OpenRTB")) marker;
            succeeded := stored |}
         :: {| request :=
                 replyRequest (Sample.event "<@U0BOT> OpenRTB")
                   (answer {| answer := CONFIG_ERROR; success := false |});
               succeeded := true |}
         :: history
              (pushEntry {| request := FirestoreGet (js "E1");
                            succeeded := true |} Sample.start).
Proof.
  apply (answer_is_delivered_whatever_the_flag Sample.cfg_no_key
           Sample.healthy (Sample.event "<@U0BOT> OpenRTB")
           (js "<@U0BOT> OpenRTB") Sample.start
           (pushEntry {| request := FirestoreGet (js "E1");
                         succeeded := true |} Sample.start)
           (pushEntry {| request := FirestoreGet (js "E1");
                         succeeded := true |} Sample.start)
           {| answer := CONFIG_ERROR; success := false |}).
  - vm_compute. reflexivity.
  - reflexivity.
  - vm_compute. discriminate.
  - vm_compute. reflexivity.
  - vm_compute. reflexivity.
Defined.

(** ** More on batches *)

Lemma executeTool_returns (cfg : Config) (E : Env) (call : FunctionCall)
    (w : World) :
  exists part w',
    executeTool cfg E call w = (Ok part, w')
    /\ part_name part = call_name call.
Proof.
  unfold executeTool.
  match goal with
  | |- context [tryCatch ?m ?handler] =>
      destruct (tryCatch_cases m handler w)
        as [(part & w' & Hrun & ->)|(e & w' & _ & ->)]
  end.
  - exists part, w'. split; [reflexivity|].
    apply bind_Ok in Hrun as (toolResult & w1 & _ & Hrun).
    injection Hrun as <- _. reflexivity.
  - eexists _, _. split; reflexivity.
Qed.

(** X19.  A batch never throws and yields one part per call, in the order
    of the calls and under their names, after the parts it was given:
    also when the client cannot be created or every call fails. *)
Theorem executeTools_one_part_per_call (cfg : Config) (E : Env)
    (calls : list FunctionCall) (parts : list Part) (w : World) :
  exists results w',
    executeTools cfg E calls parts w = (Ok (parts ++ results), w')
    /\ List.map part_name results = List.map call_name calls
    /\ length results = length calls.
Proof.
  revert parts w. induction calls as [|call rest IH]; intros parts w.
  - exists [], w. simpl. rewrite app_nil_r. repeat split.
  - simpl. unfold bind.
    destruct (executeTool_returns cfg E call w) as (part & w1 & -> & Hname).
    destruct (IH (parts ++ [part]) w1) as (results & w' & -> & Hnames & Hlen).
    exists (part :: results), w'. rewrite <- app_assoc. simpl.
    rewrite Hname, Hnames, Hlen. repeat split.
Qed.

(** X20.  Running the calls [first ++ second] is running [first] and then
    [second] on the parts and in the world [first] leaves. *)
Theorem executeTools_app (cfg : Config) (E : Env)
    (first second : list FunctionCall) (parts : list Part) (w : World) :
  executeTools cfg E (first ++ second) parts w
  = bind (executeTools cfg E first parts) (executeTools cfg E second) w.
Proof.
  revert parts w. induction first as [|call rest IH]; intros parts w.
  - reflexivity.
  - simpl. unfold bind at 1 2 3.
    destruct (executeTool cfg E call w) as [[part|e] w1]; [|reflexivity].
    rewrite IH. reflexivity.
Qed.

(** X21.  The [isError] flag of a tool result does not reach the model.
    With the client created, a request that is answered by a result with
    content gives a content part holding the blank-line join of its text
    fragments (the JSON of the content when that join is empty), whether
    the result is flagged as an error or not. *)
Theorem flagged_result_is_forwarded_as_content (cfg : Config) (E : Env)
    (call : FunctionCall) (w : World) (c : McpClient)
    (items : list ContentItem) :
  let entry := {| request := toolRequest call; succeeded := true |} in
  client w = Some c ->
  fault E (history w) (toolRequest call) = None ->
  result_content (callToolResult E (entry :: history w)) = Some items ->
  callMcpTool cfg E (call_name call) (call_args call) w
  = (Ok {| content := textOf E items;
           isError := result_isError (callToolResult E (entry :: history w)) |},
     pushEntry entry w)
  /\ executeTool cfg E call w
     = (Ok {| part_name := call_name call;
              part_response := ResponseContent (textOf E items) |},
        pushEntry entry w).
Proof.
  intros entry Hc Hfault Hcontent.
  assert (Hcall : callMcpTool cfg E (call_name call) (call_args call) w
    = (Ok {| content := textOf E items;
             isError := result_isError
                          (callToolResult E (entry :: history w)) |},
       pushEntry entry w)).
  { unfold callMcpTool, bind.
    rewrite (getClient_cached cfg E c w Hc), await_run.
    fold (toolRequest call). rewrite Hfault.
    unfold getWorld. cbn [history pushEntry]. fold entry.
    rewrite Hcontent. reflexivity. }
  split; [exact Hcall|].
  unfold executeTool, tryCatch, bind. rewrite Hcall. reflexivity.
Qed.

Lemma flagged_result_is_forwarded_as_content_witness :
  callMcpTool Sample.cfg Cases.silent (call_name Sample.searchCall)
    (call_args Sample.searchCall) Sample.connected
  = (Ok {| content :=
             textOf Cases.silent
               [{| item_type := js "image"; item_text := None |}];
           isError :=
             result_isError
               (callToolResult Cases.silent
                  ({| request := toolRequest Sample.searchCall;
                      succeeded := true |} :: history Sample.connected)) |},
     pushEntry {| request := toolRequest Sample.searchCall;
                  succeeded := true |} Sample.connected)
  /\ executeTool Sample.cfg Cases.silent Sample.searchCall Sample.connected
     = (Ok {| part_name := call_name Sample.searchCall;
              part_response :=
                ResponseContent
                  (textOf Cases.silent
                     [{| item_type := js "image"; item_text := None |}]) |},
        pushEntry {| request := toolRequest Sample.searchCall;
                     succeeded := true |} Sample.connected).
Proof.
  apply (flagged_result_is_forwarded_as_content Sample.cfg Cases.silent
           Sample.searchCall Sample.connected theClient
           [{| item_type := js "image"; item_text := None |}]).
  - reflexivity.
  - reflexivity.
  - reflexivity.
Defined.

(** ** The endpoint *)

(** X22.  The endpoint throws, before any response and any request, on a
    body whose payload parses to [null], and only on such a body; on every
    other body it answers, with 200, 400 or 500, and when it answers 400
    it has sent no request and changed nothing. *)
Theorem pubsubPush_responds_unless_null (cfg : Config) (E : Env)
    (reqBody : PubSubMessage) (w : World) :
  (parsesToNull E reqBody
   /\ exists e, pubsubPush cfg E reqBody w = (Raise e, w))
  \/ (~ parsesToNull E reqBody
      /\ exists resp w',
          pubsubPush cfg E reqBody w = (Ok resp, w')
          /\ (status resp = 200 \/ status resp = 400 \/ status resp = 500)
          /\ (status resp = 400 -> w' = w)).
Proof.
  destruct (pubsubPush_cases cfg E reqBody w)
    as [(Hno & resp & Hrun & Hstatus)
       |[(Hnull & e & Hrun)|(Hno & event & Hrun)]].
  - right. split; [exact Hno|]. exists resp, w.
    split; [exact Hrun|]. split; [tauto | reflexivity].
  - left. split; [exact Hnull|]. exists e. exact Hrun.
  - right. split; [exact Hno|]. rewrite Hrun.
    destruct (handleEvent_outcome cfg E event w) as (resp & w' & -> & Hout).
    exists resp, w'. split; [reflexivity|].
    destruct Hout; (split; [cbn; tauto | discriminate]).
Qed.

(** The payload [null] on a fresh process: the handler throws and nothing
    has been asked of any service. *)
Example null_payload_is_not_answered :
  parsesToNull Sample.healthy (Cases.body "bnVsbA==")
  /\ pubsubPush Sample.cfg Sample.healthy (Cases.body "bnVsbA==") Sample.start
     = (Raise {| message := js "Cannot read properties of null" |},
        Sample.start).
Proof.
  split.
  - eexists _, _. split; [reflexivity|]. split; [reflexivity|].
    split; [discriminate | vm_compute; reflexivity].
  - vm_compute. reflexivity.
Qed.

(** ** One connection for the life of the process *)

Section Keeps.

Context {A B : Type}.
Variable I : World -> Prop.

Lemma keeps_ret (a : A) : keeps I (ret a).
Proof. intros w Hw. exact Hw. Qed.

Lemma keeps_throw (e : JsError) : keeps I (@throw A e).
Proof. intros w Hw. exact Hw. Qed.

Lemma keeps_liftThrows (t : Throws A) : keeps I (liftThrows t).
Proof. destruct t; [apply keeps_ret | apply keeps_throw]. Qed.

Lemma keeps_bind (m : M A) (k : A -> M B) :
  keeps I m -> (forall a, keeps I (k a)) -> keeps I (bind m k).
Proof.
  intros Hm Hk w Hw. unfold bind. specialize (Hm w Hw).
  destruct (m w) as [[a|e] w1]; simpl in *; [apply Hk, Hm | exact Hm].
Qed.

Lemma keeps_tryCatch (m : M A) (handler : JsError -> M A) :
  keeps I m -> (forall e, keeps I (handler e)) -> keeps I (tryCatch m handler).
Proof.
  intros Hm Hh w Hw. unfold tryCatch. specialize (Hm w Hw).
  destruct (m w) as [[a|e] w1]; simpl in *; [exact Hm | apply Hh, Hm].
Qed.

End Keeps.

Lemma keeps_getWorld (I : World -> Prop) : keeps I getWorld.
Proof. intros w Hw. exact Hw. Qed.

Section KeepsConnectedOnce.

Variable cfg : Config.
Variable E : Env.

Lemma keeps_await (r : Request) :
  isConnect r = false -> keeps connectedOnce (await E r).
Proof.
  intros Hr w [Hle Hnone]. rewrite await_run.
  destruct (fault E (history w) r); unfold connectedOnce; simpl;
    rewrite count_cons; unfold weight; simpl; rewrite Hr; auto.
Qed.

Lemma keeps_setGenAI (g : option GoogleGenerativeAI) :
  keeps connectedOnce (setGenAI g).
Proof. intros w Hw. exact Hw. Qed.

Lemma keeps_storeMarker (eventId : jsstring) (m : Marker) :
  keeps connectedOnce (storeMarker eventId m).
Proof. intros w Hw. exact Hw. Qed.

Lemma keeps_getClient : keeps connectedOnce (getClient cfg E).
Proof.
  intros w [Hle Hnone].
  destruct (client w) as [c|] eqn:Hc.
  - rewrite (getClient_cached cfg E c w Hc).
    split; [exact Hle | simpl; rewrite Hc; discriminate].
  - rewrite (getClient_first cfg E w Hc). specialize (Hnone eq_refl).
    destruct (isURL E (MCP_URL cfg)); [|split; [exact Hle | auto]].
    destruct (fault E (history w) (McpConnect (MCP_URL cfg)));
      unfold connectedOnce; simpl; rewrite count_cons, Hnone;
      unfold weight; simpl; (split; [lia | discriminate]).
Qed.

Lemma keeps_getGeminiTools : keeps connectedOnce (getGeminiTools cfg E).
Proof.
  unfold getGeminiTools.
  apply keeps_bind; [apply keeps_getClient|]. intros _.
  apply keeps_bind; [apply keeps_await; reflexivity|]. intros _.
  apply keeps_bind; [apply keeps_getWorld|]. intros w.
  apply keeps_liftThrows.
Qed.

Lemma keeps_executeTools (calls : list FunctionCall) (parts : list Part) :
  keeps connectedOnce (executeTools cfg E calls parts).
Proof.
  revert parts. induction calls as [|call rest IH]; intros parts; simpl.
  - apply keeps_ret.
  - apply keeps_bind; [|intros part; apply IH].
    unfold executeTool.
    apply keeps_tryCatch; [|intros e; apply keeps_ret].
    apply keeps_bind; [|intros r; apply keeps_ret].
    unfold callMcpTool.
    apply keeps_bind; [apply keeps_getClient|]. intros _.
    apply keeps_bind; [apply keeps_await; reflexivity|]. intros _.
    apply keeps_bind; [apply keeps_getWorld|]. intros w.
    destruct (result_content _); [apply keeps_ret | apply keeps_throw].
Qed.

Lemma keeps_sendMessage (msg : ChatMessage) :
  keeps connectedOnce (sendMessage E msg).
Proof.
  unfold sendMessage.
  apply keeps_bind; [apply keeps_await; reflexivity|]. intros _.
  apply keeps_bind; [apply keeps_getWorld|]. intros w.
  apply keeps_ret.
Qed.

Lemma keeps_toolLoop (k : nat) :
  forall iteration result,
    (MAX_ITERATIONS - iteration = k)%nat ->
    keeps connectedOnce (toolLoop cfg E iteration result).
Proof.
  induction k as [|k IH]; intros iteration result Hk w Hw;
    rewrite toolLoop_step;
    destruct (lt_dec iteration MAX_ITERATIONS) as [Hlt|Hge]; try lia;
    try exact Hw.
  revert w Hw.
  apply keeps_bind; [apply keeps_liftThrows|]. intros requested.
  destruct requested as [[|call calls]|]; try apply keeps_ret.
  apply keeps_bind; [apply keeps_executeTools|]. intros parts.
  apply keeps_bind; [apply keeps_sendMessage|]. intros result'.
  apply IH. lia.
Qed.

Lemma keeps_generateAnswer (question : jsstring) :
  keeps connectedOnce (generateAnswer cfg E question).
Proof.
  unfold generateAnswer.
  destruct (isNil (GEMINI_API_KEY cfg)) eqn:Hnil; [apply keeps_ret|].
  apply keeps_tryCatch; [|intros e; apply keeps_ret].
  apply keeps_bind; [apply keeps_getGeminiTools|]. intros tools.
  apply keeps_bind.
  { unfold getModel. rewrite Hnil.
    apply keeps_bind; [apply keeps_getWorld|]. intros w.
    destruct (genAI w); [apply keeps_ret | apply keeps_setGenAI]. }
  intros _.
  apply keeps_bind; [apply keeps_sendMessage|]. intros result.
  apply keeps_bind; [apply (keeps_toolLoop MAX_ITERATIONS); reflexivity|].
  intros result'.
  apply keeps_bind; [apply keeps_liftThrows|]. intros answer.
  apply keeps_ret.
Qed.

Lemma keeps_reply_and_mark (event : SlackEvent) (replyText : jsstring) :
  keeps connectedOnce
    (replyToSlack E (channel event) (thread_ts event) replyText ;;
     markEventProcessed E (event_id event) (channel event) (ts event) ;;
     ret (respond 200 "OK"))%M.
Proof.
  apply keeps_bind; [apply keeps_await; reflexivity|]. intros _.
  apply keeps_bind; [|intros _; apply keeps_ret].
  unfold markEventProcessed.
  apply keeps_tryCatch; [|intros e; apply keeps_ret].
  apply keeps_bind; [apply keeps_getWorld|]. intros w.
  apply keeps_bind; [apply keeps_await; reflexivity|]. intros _.
  apply keeps_storeMarker.
Qed.

Lemma keeps_pubsubPush (reqBody : PubSubMessage) :
  keeps connectedOnce (pubsubPush cfg E reqBody).
Proof.
  unfold pubsubPush.
  destruct (message_ reqBody) as [envelope|]; [|apply keeps_ret].
  destruct (data envelope) as [[|u encoded]|]; try apply keeps_ret.
  destruct (decodeEvent E (u :: encoded)) as [[|event]|e];
    [apply keeps_throw | | apply keeps_ret].
  unfold handleEvent.
  apply keeps_bind.
  { unfold isEventProcessed.
    apply keeps_tryCatch; [|intros e; apply keeps_ret].
    apply keeps_bind; [apply keeps_await; reflexivity|]. intros _.
    apply keeps_bind; [apply keeps_getWorld|]. intros w.
    apply keeps_ret. }
  intros [|]; [apply keeps_ret|].
  apply keeps_tryCatch; [|intros e; apply keeps_ret].
  apply keeps_bind.
  { destruct (text event); [apply keeps_ret | apply keeps_throw]. }
  intros t.
  destruct (isNil (extractQuestion t)); [apply keeps_reply_and_mark|].
  apply keeps_bind; [apply keeps_generateAnswer|]. intros result.
  apply keeps_reply_and_mark.
Qed.

End KeepsConnectedOnce.

(** X23.  A process connects to the MCP server at most once in its life:
    starting without client and with an empty history, after any number
    of deliveries handled one after the other the history holds at most
    one connection request, whatever the services answered. *)
Theorem process_connects_at_most_once (cfg : Config) (E : Env)
    (bodies : list PubSubMessage) (w : World) :
  history w = [] ->
  client w = None ->
  (count isConnect (history (serve cfg E bodies w)) <= 1)%nat.
Proof.
  intros Hhist Hclient.
  assert (Hstart : connectedOnce w).
  { unfold connectedOnce. rewrite Hhist. split; [|reflexivity].
    unfold count. simpl. lia. }
  clear Hhist Hclient. revert w Hstart.
  induction bodies as [|reqBody rest IH]; intros w [Hle Hnone]; simpl.
  - exact Hle.
  - apply IH, keeps_pubsubPush. split; assumption.
Qed.

Lemma process_connects_at_most_once_witness :
  (count isConnect
     (history (serve Sample.cfg Sample.healthy
                 [Cases.question; Cases.question; Cases.body "bnVsbA==";
                  Cases.body "bm90IGpzb24="; Cases.body ""]
                 Sample.start))
   <= 1)%nat.
Proof.
  apply (process_connects_at_most_once Sample.cfg Sample.healthy
           [Cases.question; Cases.question; Cases.body "bnVsbA==";
            Cases.body "bm90IGpzb24="; Cases.body ""]
           Sample.start).
  - reflexivity.
  - reflexivity.
Defined.

(** The five pushes above are the question, its redelivery, the payload
    [null], a payload that is not JSON and a body with empty data.  The
    first is answered 200 after the agent has connected, listed the tools
    and called one; the others are answered 200 as a duplicate, not at
    all, 400 and 400, and none of them connects again. *)
Example five_pushes_share_one_connection :
  let push := pubsubPush Sample.cfg Sample.healthy in
  let w1 := snd (push Cases.question Sample.start) in
  fst (push Cases.question Sample.start) = Ok (respond 200 "OK")
  /\ count isConnect (history w1) = 1%nat
  /\ fst (push Cases.question w1) = Ok (respond 200 "Already processed")
  /\ fst (push (Cases.body "bnVsbA==") w1)
     = Raise {| message := js "Cannot read properties of null" |}
  /\ fst (push (Cases.body "bm90IGpzb24=") w1)
     = Ok (respond 400 "Invalid message encoding")
  /\ fst (push (Cases.body "") w1) = Ok (respond 400 "Invalid message")
  /\ count isConnect
       (history (serve Sample.cfg Sample.healthy
                   [Cases.question; Cases.question; Cases.body "bnVsbA==";
                    Cases.body "bm90IGpzb24="; Cases.body ""]
                   Sample.start)) = 1%nat.
Proof. vm_compute. repeat split. Qed.
